(** * Tic Tac Toe (firstapp.py): the game core, embedded and verified

    The development follows the class [TicTacToe] of [firstapp.py]: the 3x3
    board, win and draw detection, the computer's move selection, the click
    handlers with their cooldown, the move history with undo, the score and
    the menu.  Drawing code is left out.

    Conventions of the embedding:
    - Python floats are IEEE binary64 numbers: Rocq's primitive [float];
    - Python ints are [Z]; list indices follow Python (negative indices
      count from the end, anything else out of range raises [IndexError]);
    - a computation that can raise returns [option], [None] standing for
      the raised exception;
    - [self] is passed explicitly: a method reads a [TicTacToe] record and
      returns the updated one;
    - [time.time()] and [random.choice] are inputs: the clock reading and
      the random draw are parameters of the methods that use them. *)

From Stdlib Require Import ZArith Floats Lia Ascii String.
From stdpp Require Import base option list strings.

#[local] Set Warnings "-inexact-float".
#[local] Open Scope Z_scope.

(** ** Python primitives *)

Module Py.

(** [l[i]] index normalisation for a list of length [len]. *)
Definition index (len : nat) (i : Z) : option nat :=
  if (0 <=? i) && (i <? Z.of_nat len) then Some (Z.to_nat i)
  else if (- Z.of_nat len <=? i) && (i <? 0) then Some (Z.to_nat (Z.of_nat len + i))
  else None.

(** [l[i]] *)
Definition getitem {A} (l : list A) (i : Z) : option A :=
  k ← index (length l) i; l !! k.

(** [l[i] = v] *)
Definition setitem {A} (l : list A) (i : Z) (v : A) : option (list A) :=
  k ← index (length l) i; Some (<[k:=v]> l).

(** [range(n)] *)
Definition range (n : nat) : list Z := Z.of_nat <$> seq 0 n.

(** [int(f)]: truncation toward zero; raises on infinities and NaN. *)
Definition int (f : float) : option Z :=
  match Prim2SF f with
  | S754_zero _ => Some 0
  | S754_finite s m e =>
      let a := if 0 <=? e then Z.pos m * 2 ^ e else Z.pos m / 2 ^ (- e) in
      Some (if s then - a else a)
  | S754_infinity _ | S754_nan => None
  end.

(** [random.choice(l)], the draw [rnd] given: every element of a non-empty
    list is the choice of some draw; an empty list raises. *)
Definition choice {A} (rnd : nat) (l : list A) : option A :=
  l !! (rnd `mod` length l)%nat.

(** [min(a, b)] on floats. *)
Definition fmin (a b : float) : float := if (b <? a)%float then b else a.

(** [for i in is_: ...] whose body may [return v]: the loop stops at the
    first iteration that returns. *)
Fixpoint for_return {I A} (body : I → option (option A)) (is_ : list I)
  : option (option A) :=
  match is_ with
  | [] => Some None
  | i :: rest =>
      r ← body i;
      match r with
      | Some v => Some (Some v)
      | None => for_return body rest
      end
  end.

End Py.

(** ** Data model *)

(** The two symbols, the strings ['X'] and ['O']. *)
Inductive mark : Set := X | O.

(** An [Optional[str]]: a board cell, a chosen symbol, the winner. *)
Definition cell : Set := option mark.

(** [a == b] on [Optional[str]]. *)
Definition sym_eqb (a b : cell) : bool :=
  match a, b with
  | None, None => true
  | Some X, Some X => true
  | Some O, Some O => true
  | _, _ => false
  end.

(** [c is None] and [c is not None]; a symbol is truthy, [None] is not. *)
Definition is_None (c : cell) : bool :=
  match c with None => true | Some _ => false end.
Definition is_not_None (c : cell) : bool :=
  match c with None => false | Some _ => true end.

(** [self.board]: a list of rows, each a list of cells. *)
Definition Board : Set := list (list cell).

(** [[[None for _ in range(3)] for _ in range(3)]] *)
Definition empty_board : Board := replicate 3 (replicate 3 None).

(** [b[r][c]] *)
Definition board_get (b : Board) (r c : Z) : option cell :=
  row ← Py.getitem b r; Py.getitem row c.

(** [b[r][c] = v] *)
Definition board_set (b : Board) (r c : Z) (v : cell) : option Board :=
  row ← Py.getitem b r;
  row' ← Py.setitem row c v;
  Py.setitem b r row'.

(** [self.score], a dict with the three keys ['player'], ['computer'],
    ['draws']; no key is ever added or removed. *)
Record Score : Set := mkScore {
  player : Z;
  computer : Z;
  draws : Z
}.

Definition zero_score : Score := mkScore 0 0 0.

(** An entry of [self.move_history]: the tuple [(row, col, symbol)]. *)
Definition Move : Set := (Z * Z * cell)%type.

(** RGB triple. *)
Definition Color : Set := (float * float * float)%type.

(** The attributes of [TicTacToe] that the game logic reads or writes. *)
Record TicTacToe : Set := mkTicTacToe {
  board : Board;
  current_player : bool;       (* True for player, False for computer *)
  game_over : bool;
  winner : cell;
  in_menu : bool;
  show_winner_screen : bool;
  fade_alpha : float;
  player_symbol : cell;
  computer_symbol : cell;
  player_color : Color;
  computer_color : Color;
  animation_progress : float;
  last_move_time : float;
  score : Score;
  move_history : list Move;
  last_computer_move : Z * Z
}.

(** [self.move_delay], [self.animation_speed], [self.hover_speed]: set once
    in [__init__]. *)
Definition move_delay : float := 0.3%float.
Definition animation_speed : float := 0.1%float.
Definition hover_speed : float := 0.1%float.

Definition green : Color := (0.2, 0.8, 0.2)%float.
Definition red : Color := (0.8, 0.2, 0.2)%float.
Definition blue : Color := (0.2, 0.2, 0.8)%float.
Definition purple : Color := (0.6, 0.2, 0.8)%float.

(** The state [__init__] builds. *)
Definition init : TicTacToe := {|
  board := empty_board;
  current_player := true;
  game_over := false;
  winner := None;
  in_menu := true;
  show_winner_screen := false;
  fade_alpha := 0.0%float;
  player_symbol := None;
  computer_symbol := None;
  player_color := green;
  computer_color := red;
  animation_progress := 0.0%float;
  last_move_time := 0.0%float;
  score := zero_score;
  move_history := [];
  last_computer_move := (-1, -1)
|}.

(** Attribute assignments [self.f = v]. *)
Definition set_board (s : TicTacToe) (v : Board) : TicTacToe :=
  mkTicTacToe v (current_player s) (game_over s) (winner s) (in_menu s)
    (show_winner_screen s) (fade_alpha s) (player_symbol s) (computer_symbol s)
    (player_color s) (computer_color s) (animation_progress s)
    (last_move_time s) (score s) (move_history s) (last_computer_move s).
Definition set_current_player (s : TicTacToe) (v : bool) : TicTacToe :=
  mkTicTacToe (board s) v (game_over s) (winner s) (in_menu s)
    (show_winner_screen s) (fade_alpha s) (player_symbol s) (computer_symbol s)
    (player_color s) (computer_color s) (animation_progress s)
    (last_move_time s) (score s) (move_history s) (last_computer_move s).
Definition set_game_over (s : TicTacToe) (v : bool) : TicTacToe :=
  mkTicTacToe (board s) (current_player s) v (winner s) (in_menu s)
    (show_winner_screen s) (fade_alpha s) (player_symbol s) (computer_symbol s)
    (player_color s) (computer_color s) (animation_progress s)
    (last_move_time s) (score s) (move_history s) (last_computer_move s).
Definition set_winner (s : TicTacToe) (v : cell) : TicTacToe :=
  mkTicTacToe (board s) (current_player s) (game_over s) v (in_menu s)
    (show_winner_screen s) (fade_alpha s) (player_symbol s) (computer_symbol s)
    (player_color s) (computer_color s) (animation_progress s)
    (last_move_time s) (score s) (move_history s) (last_computer_move s).
Definition set_in_menu (s : TicTacToe) (v : bool) : TicTacToe :=
  mkTicTacToe (board s) (current_player s) (game_over s) (winner s) v
    (show_winner_screen s) (fade_alpha s) (player_symbol s) (computer_symbol s)
    (player_color s) (computer_color s) (animation_progress s)
    (last_move_time s) (score s) (move_history s) (last_computer_move s).
Definition set_show_winner_screen (s : TicTacToe) (v : bool) : TicTacToe :=
  mkTicTacToe (board s) (current_player s) (game_over s) (winner s) (in_menu s)
    v (fade_alpha s) (player_symbol s) (computer_symbol s)
    (player_color s) (computer_color s) (animation_progress s)
    (last_move_time s) (score s) (move_history s) (last_computer_move s).
Definition set_fade_alpha (s : TicTacToe) (v : float) : TicTacToe :=
  mkTicTacToe (board s) (current_player s) (game_over s) (winner s) (in_menu s)
    (show_winner_screen s) v (player_symbol s) (computer_symbol s)
    (player_color s) (computer_color s) (animation_progress s)
    (last_move_time s) (score s) (move_history s) (last_computer_move s).
Definition set_player_symbol (s : TicTacToe) (v : cell) : TicTacToe :=
  mkTicTacToe (board s) (current_player s) (game_over s) (winner s) (in_menu s)
    (show_winner_screen s) (fade_alpha s) v (computer_symbol s)
    (player_color s) (computer_color s) (animation_progress s)
    (last_move_time s) (score s) (move_history s) (last_computer_move s).
Definition set_computer_symbol (s : TicTacToe) (v : cell) : TicTacToe :=
  mkTicTacToe (board s) (current_player s) (game_over s) (winner s) (in_menu s)
    (show_winner_screen s) (fade_alpha s) (player_symbol s) v
    (player_color s) (computer_color s) (animation_progress s)
    (last_move_time s) (score s) (move_history s) (last_computer_move s).
Definition set_player_color (s : TicTacToe) (v : Color) : TicTacToe :=
  mkTicTacToe (board s) (current_player s) (game_over s) (winner s) (in_menu s)
    (show_winner_screen s) (fade_alpha s) (player_symbol s) (computer_symbol s)
    v (computer_color s) (animation_progress s)
    (last_move_time s) (score s) (move_history s) (last_computer_move s).
Definition set_computer_color (s : TicTacToe) (v : Color) : TicTacToe :=
  mkTicTacToe (board s) (current_player s) (game_over s) (winner s) (in_menu s)
    (show_winner_screen s) (fade_alpha s) (player_symbol s) (computer_symbol s)
    (player_color s) v (animation_progress s)
    (last_move_time s) (score s) (move_history s) (last_computer_move s).
Definition set_animation_progress (s : TicTacToe) (v : float) : TicTacToe :=
  mkTicTacToe (board s) (current_player s) (game_over s) (winner s) (in_menu s)
    (show_winner_screen s) (fade_alpha s) (player_symbol s) (computer_symbol s)
    (player_color s) (computer_color s) v
    (last_move_time s) (score s) (move_history s) (last_computer_move s).
Definition set_last_move_time (s : TicTacToe) (v : float) : TicTacToe :=
  mkTicTacToe (board s) (current_player s) (game_over s) (winner s) (in_menu s)
    (show_winner_screen s) (fade_alpha s) (player_symbol s) (computer_symbol s)
    (player_color s) (computer_color s) (animation_progress s)
    v (score s) (move_history s) (last_computer_move s).
Definition set_score (s : TicTacToe) (v : Score) : TicTacToe :=
  mkTicTacToe (board s) (current_player s) (game_over s) (winner s) (in_menu s)
    (show_winner_screen s) (fade_alpha s) (player_symbol s) (computer_symbol s)
    (player_color s) (computer_color s) (animation_progress s)
    (last_move_time s) v (move_history s) (last_computer_move s).
Definition set_move_history (s : TicTacToe) (v : list Move) : TicTacToe :=
  mkTicTacToe (board s) (current_player s) (game_over s) (winner s) (in_menu s)
    (show_winner_screen s) (fade_alpha s) (player_symbol s) (computer_symbol s)
    (player_color s) (computer_color s) (animation_progress s)
    (last_move_time s) (score s) v (last_computer_move s).
Definition set_last_computer_move (s : TicTacToe) (v : Z * Z) : TicTacToe :=
  mkTicTacToe (board s) (current_player s) (game_over s) (winner s) (in_menu s)
    (show_winner_screen s) (fade_alpha s) (player_symbol s) (computer_symbol s)
    (player_color s) (computer_color s) (animation_progress s)
    (last_move_time s) (score s) (move_history s) v.

(** ** Win and draw detection *)

(** [b[r1][c1] == b[r2][c2] == b[r3][c3] is not None]: a chained
    comparison, the third cell read only when the first two are equal. *)
Definition line_complete (b : Board) (r1 c1 r2 c2 r3 c3 : Z) : option bool :=
  x ← board_get b r1 c1;
  y ← board_get b r2 c2;
  if sym_eqb x y then
    z ← board_get b r3 c3;
    Some (sym_eqb y z && is_not_None z)
  else Some false.

(** [if b[r1][c1] == b[r2][c2] == b[r3][c3] is not None: return b[r1][c1]]:
    [Some v] when the statement returns [v], [None] when control goes on. *)
Definition return_if_line (b : Board) (r1 c1 r2 c2 r3 c3 : Z)
  : option (option cell) :=
  t ← line_complete b r1 c1 r2 c2 r3 c3;
  if (t : bool) then v ← board_get b r1 c1; Some (Some v) else Some None.

(** [check_winner]: rows, then columns, then the two diagonals. *)
Definition check_winner (b : Board) : option cell :=
  (* Check rows *)
  r ← Py.for_return (λ i, return_if_line b i 0 i 1 i 2) (Py.range 3);
  match (r : option cell) with
  | Some v => Some v
  | None =>
  (* Check columns *)
  r ← Py.for_return (λ i, return_if_line b 0 i 1 i 2 i) (Py.range 3);
  match (r : option cell) with
  | Some v => Some v
  | None =>
  (* Check diagonals *)
  r ← return_if_line b 0 0 1 1 2 2;
  match (r : option cell) with
  | Some v => Some v
  | None =>
  r ← return_if_line b 0 2 1 1 2 0;
  match (r : option cell) with
  | Some v => Some v
  | None => Some None
  end end end end.

(** [is_board_full]: [all(all(cell is not None for cell in row) for row in
    self.board)]. *)
Definition is_board_full (b : Board) : bool :=
  forallb (forallb is_not_None) b.

(** ** The computer's move *)

(** The inner loop of [find_winning_move], [for j in range(3)] at row [i]:
    try the move, test it, take it back. *)
Fixpoint find_winning_move_cols (b : Board) (player : cell) (i : Z) (js : list Z)
  : option (Board * option (Z * Z)) :=
  match js with
  | [] => Some (b, None)
  | j :: js' =>
      c ← board_get b i j;
      if is_None c then
        (* Try the move *)
        b1 ← board_set b i j player;
        w ← check_winner b1;
        if sym_eqb w player then
          b2 ← board_set b1 i j None;
          Some (b2, Some (i, j))
        else
          b2 ← board_set b1 i j None;
          find_winning_move_cols b2 player i js'
      else find_winning_move_cols b player i js'
  end.

(** The outer loop, [for i in range(3)]. *)
Fixpoint find_winning_move_rows (b : Board) (player : cell) (is_ : list Z)
  : option (Board * option (Z * Z)) :=
  match is_ with
  | [] => Some (b, None)
  | i :: is' =>
      '(b', r) ← find_winning_move_cols b player i (Py.range 3);
      match r with
      | Some m => Some (b', Some m)
      | None => find_winning_move_rows b' player is'
      end
  end.

(** [find_winning_move(player)]: the board after the search and the move
    found. *)
Definition find_winning_move (b : Board) (player : cell)
  : option (Board * option (Z * Z)) :=
  find_winning_move_rows b player (Py.range 3).

(** [[(r, c) for r, c in cells if self.board[r][c] is None]] *)
Fixpoint empty_among (b : Board) (cells : list (Z * Z)) : option (list (Z * Z)) :=
  match cells with
  | [] => Some []
  | (r, c) :: rest =>
      v ← board_get b r c;
      tl ← empty_among b rest;
      Some (if is_None v then (r, c) :: tl else tl)
  end.

Definition corners : list (Z * Z) := [(0, 0); (0, 2); (2, 0); (2, 2)].
Definition edges : list (Z * Z) := [(0, 1); (1, 0); (1, 2); (2, 1)].

(** [self.board[row][col] = self.computer_symbol;
    self.last_computer_move = (row, col); return True] *)
Definition play_at (s : TicTacToe) (row col : Z) : option (TicTacToe * bool) :=
  b ← board_set (board s) row col (computer_symbol s);
  Some (set_last_computer_move (set_board s b) (row, col), true).

(** [computer_move]: win, else block, else centre, else a random empty
    corner, else a random empty edge.  Returns the new state and the
    method's boolean result. *)
Definition computer_move (s : TicTacToe) (rnd : nat) : option (TicTacToe * bool) :=
  let s := set_last_computer_move s (-1, -1) in
  (* Try to win *)
  '(b, move) ← find_winning_move (board s) (computer_symbol s);
  let s := set_board s b in
  match move with
  | Some (row, col) => play_at s row col
  | None =>
  (* Block player's winning move *)
  '(b, move) ← find_winning_move (board s) (player_symbol s);
  let s := set_board s b in
  match move with
  | Some (row, col) => play_at s row col
  | None =>
  (* Try to take center *)
  c ← board_get (board s) 1 1;
  if is_None c then play_at s 1 1 else
  (* Try to take corners *)
  empty_corners ← empty_among (board s) corners;
  match empty_corners with
  | _ :: _ => '(row, col) ← Py.choice rnd empty_corners; play_at s row col
  | [] =>
  (* Take any available edge *)
  empty_edges ← empty_among (board s) edges;
  match empty_edges with
  | _ :: _ => '(row, col) ← Py.choice rnd empty_edges; play_at s row col
  | [] => Some (s, false)
  end end end end.

(** ** Pointer coordinates *)

(** [get_cell]: board coordinates in [-1, 1] to [(row, col)], the sentinel
    [(-1, -1)] when the pointer is off the board. *)
Definition get_cell (x_pos y_pos : float) : option (Z * Z) :=
  (* Convert from [-1, 1] to [0, 3] range *)
  let board_x := ((x_pos + 1) * 1.5)%float in
  let board_y := ((y_pos + 1) * 1.5)%float in
  (* Check if cursor is outside the board *)
  if (board_x <? 0)%float || (3 <? board_x)%float
     || (board_y <? 0)%float || (3 <? board_y)%float
  then Some (-1, -1)
  else
    (* Get cell coordinates *)
    col ← Py.int board_x;
    row ← Py.int board_y;
    (* Ensure coordinates are within valid range *)
    if (row <? 0) || (2 <? row) || (col <? 0) || (2 <? col)
    then Some (-1, -1)
    else Some (row, col).

(** A button rectangle [[x, y, w, h]]. *)
Definition Rect : Set := (float * float * float * float)%type.

(** [is_point_in_rect]: [x <= px <= x + w and y <= py <= y + h]. *)
Definition is_point_in_rect (px py : float) (r : Rect) : bool :=
  let '(x, y, w, h) := r in
  (x <=? px)%float && (px <=? x + w)%float
  && (y <=? py)%float && (py <=? y + h)%float.

(** ** Score *)

(** [update_score] *)
Definition update_score (s : TicTacToe) : TicTacToe :=
  let sc := score s in
  if sym_eqb (winner s) (player_symbol s) then
    set_score s (mkScore (player sc + 1) (computer sc) (draws sc))
  else if sym_eqb (winner s) (computer_symbol s) then
    set_score s (mkScore (player sc) (computer sc + 1) (draws sc))
  else if game_over s then
    set_score s (mkScore (player sc) (computer sc) (draws sc + 1))
  else s.

(** ** Reset *)

(** [reset_game]: the assignments in the order of the source, then the
    "player chose O" branch, which reads the two flags just assigned. *)
Definition reset_game (s : TicTacToe) (rnd : nat) : option TicTacToe :=
  let s := set_board s empty_board in
  let s := set_current_player s true in
  let s := set_game_over s false in
  let s := set_winner s None in
  let s := set_in_menu s true in
  let s := set_show_winner_screen s false in
  let s := set_fade_alpha s 0.0%float in
  let s := set_player_symbol s None in
  let s := set_computer_symbol s None in
  let s := set_player_color s green in
  let s := set_computer_color s red in
  let s := set_move_history s [] in
  let s := set_score s zero_score in
  let s := set_last_computer_move s (-1, -1) in
  (* If player chose O, let computer make first move *)
  if negb (current_player s) && negb (in_menu s) then
    '(s, _) ← computer_move s rnd;
    let s := set_current_player s false in
    Some (set_animation_progress s 0.0%float)
  else Some s.

(** ** Clicks on the board *)

(** What [handle_click] does once a placement is on the board: read the
    winner and, when the round is decided, conclude it.  The boolean tells
    whether the round was concluded. *)
Definition conclude_if_decided (s : TicTacToe) : option (TicTacToe * bool) :=
  w ← check_winner (board s);
  let s := set_winner s w in
  if is_not_None (winner s) || is_board_full (board s) then
    let s := set_game_over s true in
    let s := set_show_winner_screen s true in
    let s := set_fade_alpha s 0.0%float in
    Some (update_score s, true)
  else Some (s, false).

(** [handle_click], [current_time] being what [time.time()] returns when
    the method reads it.  [None]: an exception left the [try] body, and the
    handler passes it to [handle_error]. *)
Definition handle_click (s : TicTacToe) (x_pos y_pos : float)
    (current_time : float) (rnd : nat) : option TicTacToe :=
  if game_over s || negb (current_player s) then Some s else
  '(row, col) ← get_cell x_pos y_pos;
  if (row <? 0) || (2 <? row) || (col <? 0) || (2 <? col) then Some s else
  if (current_time - last_move_time s <? move_delay)%float then Some s
  else
  c ← board_get (board s) row col;
  if is_None c then
    (* Player's move *)
    b ← board_set (board s) row col (player_symbol s);
    let s := set_board s b in
    let s := set_move_history s (move_history s ++ [(row, col, player_symbol s)]) in
    let s := set_animation_progress s 0.0%float in
    let s := set_last_move_time s current_time in
    (* Check for win or draw after player's move *)
    '(s, decided) ← conclude_if_decided s;
    if (decided : bool) then Some s else
    (* Computer's move *)
    let s := set_current_player s false in
    '(s, moved) ← computer_move s rnd;
    s ← (if (moved : bool) then
           let '(comp_row, comp_col) := last_computer_move s in
           let s := set_move_history s
                      (move_history s ++ [(comp_row, comp_col, computer_symbol s)]) in
           let s := set_animation_progress s 0.0%float in
           (* Check for win or draw after computer's move *)
           '(s, _) ← conclude_if_decided s;
           Some s
         else Some s);
    Some (set_current_player s true)
  else Some s.

(** ** The winner screen *)

(** [handle_winner_screen_click] *)
Definition handle_winner_screen_click (s : TicTacToe) (x_pos y_pos : float)
    (rnd : nat) : option TicTacToe :=
  if negb (show_winner_screen s) || (fade_alpha s <? 0.7)%float then Some s else
  let button_y := (-0.3)%float in
  (* Check restart button *)
  if is_point_in_rect x_pos y_pos ((-0.4)%float, button_y, 0.3%float, 0.1%float) then
    let s := set_animation_progress s 0.0%float in
    let s := set_fade_alpha s 0.0%float in
    reset_game s rnd
  (* Check menu button *)
  else if is_point_in_rect x_pos y_pos (0.1%float, button_y, 0.3%float, 0.1%float) then
    let s := set_animation_progress s 0.0%float in
    let s := set_fade_alpha s 0.0%float in
    let s := set_in_menu s true in
    reset_game s rnd
  else Some s.

(** ** Undo *)

(** [l.pop()]: the last element and the list without it. *)
Definition pop {A} (l : list A) : option (A * list A) :=
  x ← last l; Some (x, removelast l).

(** One round of the loop in [undo_last_move]:
    [if self.move_history: row, col, _ = self.move_history.pop();
     self.board[row][col] = None]. *)
Definition undo_one (s : TicTacToe) : option TicTacToe :=
  match move_history s with
  | [] => Some s
  | _ :: _ =>
      '(row, col, _, rest) ← pop (move_history s);
      let s := set_move_history s rest in
      b ← board_set (board s) row col None;
      Some (set_board s b)
  end.

(** [undo_last_move] *)
Definition undo_last_move (s : TicTacToe) : option TicTacToe :=
  if (2 <=? length (move_history s))%nat then
    (* Undo both player's and computer's moves *)
    s ← undo_one s;
    s ← undo_one s;
    let s := set_game_over s false in
    let s := set_winner s None in
    let s := set_show_winner_screen s false in
    let s := set_current_player s true in
    Some (set_animation_progress s 0.0%float)
  else Some s.

(** ** Buttons *)

Definition button_width : float := 0.4%float.
Definition button_height : float := 0.18%float.
Definition button_spacing : float := 0.06%float.
Definition menu_y : float := 0.6%float.

(** [self.buttons], name and ['rect'], in insertion order. *)
Definition buttons : list (string * Rect) :=
  [ ("restart", (0.05, 0.05, button_width, button_height));
    ("menu", (0.3 + button_spacing, 0.05, button_width, button_height));
    ("undo", (0.55 + 2 * button_spacing, 0.05, button_width, button_height)) ]%float.

(** [self.menu_buttons], name and ['rect'], in insertion order. *)
Definition menu_buttons : list (string * Rect) :=
  [ ("play_x", (0.3, menu_y, button_width, button_height));
    ("play_o", (0.3, menu_y - button_height - button_spacing,
                button_width, button_height));
    ("color_red", (0.3, menu_y - 2 * (button_height + button_spacing),
                   button_width, button_height));
    ("color_blue", (0.3, menu_y - 3 * (button_height + button_spacing),
                    button_width, button_height));
    ("color_green", (0.3, menu_y - 4 * (button_height + button_spacing),
                     button_width, button_height));
    ("color_purple", (0.3, menu_y - 5 * (button_height + button_spacing),
                      button_width, button_height)) ]%float.

(** [s.split(sep)] for a one-character separator. *)
Fixpoint split (sep : ascii) (s : string) : list string :=
  match s with
  | EmptyString => [EmptyString]
  | String c s' =>
      if Ascii.eqb c sep then EmptyString :: split sep s'
      else match split sep s' with
           | w :: ws => String c w :: ws
           | [] => [String c EmptyString]
           end
  end.

(** The branch of [handle_menu_click] taken for the button [name]. *)
Definition menu_action (s : TicTacToe) (name : string) (rnd : nat)
  : option TicTacToe :=
  if String.eqb name "play_x" then
    let s := set_player_symbol s (Some X) in
    let s := set_computer_symbol s (Some O) in
    let s := set_current_player s true in
    Some (set_in_menu s false)
  else if String.eqb name "play_o" then
    let s := set_player_symbol s (Some O) in
    let s := set_computer_symbol s (Some X) in
    let s := set_current_player s false in
    let s := set_in_menu s false in
    (* Computer makes first move *)
    '(s, _) ← computer_move s rnd;
    Some s
  else if String.prefix "color_" name then
    color ← Py.getitem (split "_" name) 1;
    if String.eqb color "red" then Some (set_player_color s red)
    else if String.eqb color "blue" then Some (set_player_color s blue)
    else if String.eqb color "green" then Some (set_player_color s green)
    else if String.eqb color "purple" then Some (set_player_color s purple)
    else Some s
  else Some s.

(** The loop of [handle_menu_click] over the buttons [bs] still to visit:
    the first button under the pointer acts, then [break]. *)
Fixpoint handle_menu_click_from (bs : list (string * Rect)) (s : TicTacToe)
    (x_pos y_pos : float) (rnd : nat) : option TicTacToe :=
  match bs with
  | [] => Some s
  | (name, rect) :: rest =>
      if is_point_in_rect x_pos y_pos rect then menu_action s name rnd
      else handle_menu_click_from rest s x_pos y_pos rnd
  end.

(** [handle_menu_click] *)
Definition handle_menu_click (s : TicTacToe) (x_pos y_pos : float) (rnd : nat)
  : option TicTacToe :=
  handle_menu_click_from menu_buttons s x_pos y_pos rnd.

(** The branch of [handle_button_click] taken for the button [name]. *)
Definition button_action (s : TicTacToe) (name : string) (rnd : nat)
  : option TicTacToe :=
  if String.eqb name "restart" then reset_game s rnd
  else if String.eqb name "menu" then Some (set_in_menu s true)
  else if String.eqb name "undo" then undo_last_move s
  else Some s.

(** The loop of [handle_button_click]: the first button under the pointer
    acts and the method returns [True]. *)
Fixpoint handle_button_click_from (bs : list (string * Rect)) (s : TicTacToe)
    (x y : float) (rnd : nat) : option (TicTacToe * bool) :=
  match bs with
  | [] => Some (s, false)
  | (name, rect) :: rest =>
      if is_point_in_rect x y rect then
        s' ← button_action s name rnd; Some (s', true)
      else handle_button_click_from rest s x y rnd
  end.

(** [handle_button_click] *)
Definition handle_button_click (s : TicTacToe) (x y : float) (rnd : nat)
  : option (TicTacToe * bool) :=
  handle_button_click_from buttons s x y rnd.

(** ** The game loop *)

Inductive Key : Set := K_ESCAPE | K_SPACE | K_z | K_other.

(** The events the loop of [run] reacts to; [ctrl] is
    [pygame.key.get_mods() & pygame.KMOD_CTRL], [button] the mouse button. *)
Inductive Event : Set :=
| QUIT
| VIDEORESIZE
| KEYDOWN (key : Key) (ctrl : bool)
| MOUSEBUTTONDOWN (button : Z).

(** One event of [for event in pygame.event.get()], with the pointer
    position [x_pos], [y_pos] the loop holds; returns the state and
    [running].  An exception ([None]) goes to the handler of the loop. *)
Definition handle_event (s : TicTacToe) (running : bool) (ev : Event)
    (x_pos y_pos : float) (now : float) (rnd : nat) : option (TicTacToe * bool) :=
  match ev with
  | QUIT => Some (s, false)
  | VIDEORESIZE => Some (s, running)
  | KEYDOWN K_ESCAPE _ =>
      if negb (in_menu s) then Some (set_in_menu s true, running)
      else Some (s, false)
  | KEYDOWN K_SPACE _ =>
      if game_over s then s' ← reset_game s rnd; Some (s', running)
      else Some (s, running)
  | KEYDOWN K_z ctrl =>
      if ctrl then s' ← undo_last_move s; Some (s', running)
      else Some (s, running)
  | KEYDOWN K_other _ => Some (s, running)
  | MOUSEBUTTONDOWN button =>
      if button =? 1 then
        if in_menu s then
          s' ← handle_menu_click s x_pos y_pos rnd; Some (s', running)
        else
          '(s, hit) ← handle_button_click s x_pos y_pos rnd;
          if (hit : bool) then Some (s, running)
          else if show_winner_screen s then
            s' ← handle_winner_screen_click s x_pos y_pos rnd; Some (s', running)
          else if current_player s && negb (game_over s) then
            s' ← handle_click s x_pos y_pos now rnd; Some (s', running)
          else Some (s, running)
      else Some (s, running)
  end.

(** The "Update animations" step of a frame, [delta_time] seconds after the
    previous one. *)
Definition update_animations (s : TicTacToe) (delta_time : float) : TicTacToe :=
  let s := if negb (game_over s) then
             set_animation_progress s
               (Py.fmin 1.0 (animation_progress s + animation_speed * delta_time * 60))%float
           else s in
  if show_winner_screen s then
    set_fade_alpha s (Py.fmin 1.0 (fade_alpha s + hover_speed * delta_time * 60))%float
  else s.

(** ** Notions used in the statements *)

(** The board with the nine cells given in row-major order. *)
Definition grid (a0 a1 a2 a3 a4 a5 a6 a7 a8 : cell) : Board :=
  [[a0; a1; a2]; [a3; a4; a5]; [a6; a7; a8]].

(** The shape [__init__] and [reset_game] give the board, which item
    assignment keeps: three rows of three cells. *)
Definition board_ok (b : Board) : Prop :=
  length b = 3%nat ∧ Forall (λ row, length row = 3%nat) b.

(** [(r, c)] names a cell of the board. *)
Definition on_board (r c : Z) : Prop := 0 ≤ r ≤ 2 ∧ 0 ≤ c ≤ 2.

(** The position of a cell in the row-major scan. *)
Definition row_major (r c : Z) : Z := 3 * r + c.

(** The outcome of a round as [handle_click] reads it after a placement:
    [self.winner = self.check_winner()], then
    [self.winner or self.is_board_full()]. *)
Inductive MatchResult : Set := NoResult | Win (m : mark) | Draw.

Definition round_outcome (b : Board) : option MatchResult :=
  w ← check_winner b;
  Some (match (w : cell) with
        | Some m => Win m
        | None => if is_board_full b then Draw else NoResult
        end).

(** The evaluator as the specification words it: the eight lines in the
    order rows, columns, diagonals; the first line of three equal non-empty
    cells wins; otherwise a draw on a full board. *)
Definition spec_lines : list ((Z * Z) * (Z * Z) * (Z * Z)) :=
  [ ((0, 0), (0, 1), (0, 2)); ((1, 0), (1, 1), (1, 2)); ((2, 0), (2, 1), (2, 2));
    ((0, 0), (1, 0), (2, 0)); ((0, 1), (1, 1), (2, 1)); ((0, 2), (1, 2), (2, 2));
    ((0, 0), (1, 1), (2, 2)); ((0, 2), (1, 1), (2, 0)) ].

Definition cell_at (b : Board) (p : Z * Z) : cell :=
  default None (board_get b p.1 p.2).

Definition spec_line_mark (b : Board) (l : (Z * Z) * (Z * Z) * (Z * Z)) : option mark :=
  let '(p, q, r) := l in
  match cell_at b p, cell_at b q, cell_at b r with
  | Some X, Some X, Some X => Some X
  | Some O, Some O, Some O => Some O
  | _, _, _ => None
  end.

(** What a [return] of the mark of a complete line looks like. *)
Definition returned (o : option mark) : option cell :=
  match o with Some m => Some (Some m) | None => None end.

Fixpoint spec_first_line (b : Board) (ls : list ((Z * Z) * (Z * Z) * (Z * Z)))
  : option mark :=
  match ls with
  | [] => None
  | l :: ls' =>
      match spec_line_mark b l with
      | Some m => Some m
      | None => spec_first_line b ls'
      end
  end.

Definition all_cells : list (Z * Z) :=
  [ (0, 0); (0, 1); (0, 2); (1, 0); (1, 1); (1, 2); (2, 0); (2, 1); (2, 2) ].

Definition spec_is_full (b : Board) : bool :=
  forallb (λ p, is_not_None (cell_at b p)) all_cells.

Definition spec_evaluate (b : Board) : MatchResult :=
  match spec_first_line b spec_lines with
  | Some m => Win m
  | None => if spec_is_full b then Draw else NoResult
  end.

(** Placing [m] on the empty cell [(r, c)] of [b] makes [m] the winner. *)
Definition wins_at (b : Board) (m : mark) (r c : Z) : Prop :=
  on_board r c ∧ board_get b r c = Some None ∧
  ∃ b', board_set b r c (Some m) = Some b' ∧ check_winner b' = Some (Some m).

(** The test [find_winning_move(player)] makes at the cell [p]: the cell
    is empty and [check_winner() == player] once [player] is placed there. *)
Definition winning_cell (b : Board) (player : cell) (p : Z * Z) : bool :=
  match board_get b p.1 p.2 with
  | Some None =>
      match board_set b p.1 p.2 player with
      | Some b' =>
          match check_winner b' with
          | Some w => sym_eqb w player
          | None => false
          end
      | None => false
      end
  | _ => false
  end.

(** The click at [(x, y)], time [t], is inside the cooldown of [s]. *)
Definition in_cooldown (s : TicTacToe) (t : float) : Prop :=
  (t - last_move_time s <? move_delay)%float = true.

(** ** Sample sessions *)

(** A run of board clicks, each with its pointer position, clock reading
    and random draw. *)
Fixpoint clicks (s : TicTacToe) (l : list (float * float * float * nat))
  : option TicTacToe :=
  match l with
  | [] => Some s
  | (x, y, t, rnd) :: l' => s' ← handle_click s x y t rnd; clicks s' l'
  end.

(** The centre of column (or row) [k] in pointer coordinates. *)
Definition centre (k : Z) : float :=
  if k =? 0 then (-0.7)%float else if k =? 1 then 0.0%float else 0.7%float.

(** The click on the middle of cell [(r, c)] at time [t]. *)
Definition at_cell (r c : Z) (t : float) (rnd : nat) : float * float * float * nat :=
  (centre c, centre r, t, rnd).

(** The sessions below are given twice: as the calls that produce them
    and as the state these calls evaluate to. *)

(** The menu click on "Play as X". *)
Definition started_X_play : option TicTacToe := handle_menu_click init 0.5 0.7 0.
Definition started_X : TicTacToe := Eval vm_compute in default init started_X_play.

(** The menu click on "Play as O". *)
Definition started_O_play : option TicTacToe := handle_menu_click init 0.5 0.45 0.
Definition started_O : TicTacToe := Eval vm_compute in default init started_O_play.

(** One exchange: the player takes a corner, the computer the centre. *)
Definition exchanged_play : option TicTacToe :=
  clicks started_X [at_cell 0 0 1.0 0].
Definition exchanged : TicTacToe := Eval vm_compute in default init exchanged_play.

(** The fork round before the player's last click: X . O / O O . / X . X,
    where O would win at (1, 2). *)
Definition mid_round_play : option TicTacToe :=
  clicks started_X [at_cell 0 0 1.0 0; at_cell 2 2 2.0 0; at_cell 2 0 3.0 0].
Definition mid_round : TicTacToe := Eval vm_compute in default init mid_round_play.

(** The round the player wins by the fork: X (0,0), O centre, X (2,2),
    O (0,2), X (2,0), O (1,0), X (2,1). *)
Definition won_play : option TicTacToe := clicks mid_round [at_cell 2 1 4.0 0].
Definition won : TicTacToe := Eval vm_compute in default init won_play.

(** The same round two frames later, the winner screen faded in. *)
Definition announced : TicTacToe :=
  Eval vm_compute in update_animations (update_animations won 0.1) 0.1.

(** The pointer on the winner screen's restart button. *)
Definition restart_rect : Rect := (-0.4, -0.3, 0.3, 0.1)%float.

(** The state [reset_game] leaves: everything as [__init__] sets it, but
    for the animation progress [ap] and the time [lt] of the last move,
    which the method does not assign. *)
Definition fresh_menu (ap lt : float) : TicTacToe :=
  mkTicTacToe empty_board true false None true false 0%float None None
    green red ap lt zero_score [] (-1, -1).

(** The scaled coordinate of [get_cell]. *)
Definition scaled (v : float) : float := ((v + 1) * 1.5)%float.

(** [k] is the floor of [v], for the three cells of an axis. *)
Definition floor_is (v : float) (k : Z) : Prop :=
  (k = 0 ∧ (0 <=? v)%float = true ∧ (v <? 1)%float = true)
  ∨ (k = 1 ∧ (1 <=? v)%float = true ∧ (v <? 2)%float = true)
  ∨ (k = 2 ∧ (2 <=? v)%float = true ∧ (v <? 3)%float = true).

(** A board with two complete lines, of different marks. *)
Definition two_lines : Board :=
  grid (Some O) (Some O) (Some O) (Some X) (Some X) (Some X) None None None.

(** ** The stages of an accepted click *)

(** The state right after the player's placement in [handle_click]: the
    board with the new mark, the move appended, the time of the click. *)
Definition after_player_move (s : TicTacToe) (r c : Z) (t : float) (bp : Board)
  : TicTacToe :=
  set_last_move_time
    (set_animation_progress
       (set_move_history (set_board s bp)
          (move_history s ++ [(r, c, player_symbol s)]))
       0%float)
    t.

(** The state right after the computer's placement: the board with the
    reply, the cell remembered, the move appended. *)
Definition after_computer_move (s : TicTacToe) (r c : Z) (b : Board) : TicTacToe :=
  set_animation_progress
    (set_move_history
       (set_last_computer_move (set_board s b) (r, c))
       (move_history s ++ [(r, c, computer_symbol s)]))
    0%float.

(** The round is decided: there is a winner or the board is full. *)
Definition decided (b : Board) (w : cell) : bool :=
  is_not_None w || is_board_full b.

(** What the check after a placement leaves, [w] being the winner read:
    the concluded round with its score, or the round going on. *)
Definition settle (s : TicTacToe) (w : cell) : TicTacToe :=
  if decided (board s) w then
    update_score
      (set_fade_alpha
         (set_show_winner_screen (set_game_over (set_winner s w) true) true)
         0%float)
  else set_winner s w.

(** The sum of the three counters. *)
Definition total (sc : Score) : Z := player sc + computer sc + draws sc.

(** ** Well-formed states *)

(** Every recorded move names a cell of the board. *)
Definition history_on_board (h : list Move) : Prop :=
  Forall (λ m : Move, on_board m.1.1 m.1.2) h.

(** The shape every method keeps: a 3x3 board and a history of moves on
    the board. *)
Definition well_formed (s : TicTacToe) : Prop :=
  board_ok (board s) ∧ history_on_board (move_history s).

(** The other mark. *)
Definition opposite (m : mark) : mark :=
  match m with X => O | O => X end.

(** What the flags, the symbols and the score satisfy in every state the
    handlers leave: the winner screen is up exactly when the round is over;
    a winner is recorded only for a round that is over; outside the menu
    the two sides hold opposite marks; no counter is negative. *)
Definition coherent (s : TicTacToe) : Prop :=
  game_over s = show_winner_screen s ∧
  (winner s ≠ None → game_over s = true) ∧
  (in_menu s = false →
   ∃ m, player_symbol s = Some m ∧ computer_symbol s = Some (opposite m)) ∧
  0 ≤ player (score s) ∧ 0 ≤ computer (score s) ∧ 0 ≤ draws (score s).

(** The pointer lies on one of the buttons of the game bar. *)
Definition on_game_button (x y : float) : Prop :=
  ∃ name rect, In (name, rect) buttons ∧ is_point_in_rect x y rect = true.

(** The winner screen's menu button. *)
Definition winner_menu_rect : Rect := (0.1, -0.3, 0.3, 0.1)%float.

(** The player X threatens the top row, the computer O holds the centre:
    X X . / . O . / . . ., as [handle_click] sees the board just before
    the computer replies. *)
Definition threat_state : TicTacToe :=
  Eval vm_compute in
    set_board started_X
      (grid (Some X) (Some X) None None (Some O) None None None None).

(** The centre taken by X, one corner by O, and no line in sight:
    . . . / . X . / . . O. *)
Definition quiet_state : TicTacToe :=
  Eval vm_compute in
    set_board started_X
      (grid None None None None (Some X) None None None (Some O)).

(** The state the "Play as X" branch of [handle_menu_click] leaves, and
    the state the "Play as O" branch hands to [computer_move]. *)
Definition chose_X (s : TicTacToe) : TicTacToe :=
  set_in_menu
    (set_current_player
       (set_computer_symbol (set_player_symbol s (Some X)) (Some O)) true)
    false.

Definition chose_O (s : TicTacToe) : TicTacToe :=
  set_in_menu
    (set_current_player
       (set_computer_symbol (set_player_symbol s (Some O)) (Some X)) false)
    false.

(** ** Frames of the game loop *)

(** One iteration of [while running] in [run], as far as the game state
    goes: the events of the frame, each with the clock reading and the
    random draw its handler may ask for; the pointer position the frame
    computes from the mouse after the events; the time since the last
    frame. *)
Record Frame : Set := mkFrame {
  frame_events : list (Event * float * nat);
  frame_pointer : float * float;
  delta_time : float
}.

(** An event of the frame, [pointer] being [x_pos], [y_pos] as the previous
    frame left them: in the first frame they are not assigned yet, and the
    left click, the only event that reads them, raises. *)
Definition handle_event_at (s : TicTacToe) (running : bool) (ev : Event)
    (pointer : option (float * float)) (now : float) (rnd : nat)
  : option (TicTacToe * bool) :=
  match ev, pointer with
  | MOUSEBUTTONDOWN button, None =>
      if button =? 1 then None
      else handle_event s running ev 0%float 0%float now rnd
  | _, None => handle_event s running ev 0%float 0%float now rnd
  | _, Some (x_pos, y_pos) => handle_event s running ev x_pos y_pos now rnd
  end.

(** [for event in pygame.event.get(): ...] *)
Fixpoint handle_events (s : TicTacToe) (running : bool)
    (pointer : option (float * float)) (evs : list (Event * float * nat))
    {struct evs} : option (TicTacToe * bool) :=
  match evs with
  | [] => Some (s, running)
  | (ev, now, rnd) :: rest =>
      match handle_event_at s running ev pointer now rnd with
      | Some (s', running') => handle_events s' running' pointer rest
      | None => None
      end
  end.

(** The body of the loop: the events, the new pointer position, the hover
    cell (computed, not kept here), the animations. *)
Definition run_frame (s : TicTacToe) (running : bool)
    (pointer : option (float * float)) (f : Frame)
  : option (TicTacToe * bool * option (float * float)) :=
  '(s, running) ← handle_events s running pointer (frame_events f);
  let '(x_pos, y_pos) := frame_pointer f in
  _ ← (if negb (in_menu s) && negb (game_over s)
       then get_cell x_pos y_pos else Some (-1, -1));
  Some (update_animations s (delta_time f), running, Some (x_pos, y_pos)).

(** [while running: ...] over the frames given. *)
Fixpoint run_frames (s : TicTacToe) (running : bool)
    (pointer : option (float * float)) (fs : list Frame)
    {struct fs} : option (TicTacToe * bool * option (float * float)) :=
  match fs with
  | [] => Some (s, running, pointer)
  | f :: rest =>
      if running then
        match run_frame s running pointer f with
        | Some (s', running', pointer') => run_frames s' running' pointer' rest
        | None => None
        end
      else Some (s, running, pointer)
  end.

(** The pointer position can be mapped to a cell or to the sentinel. *)
Definition mappable (p : float * float) : Prop := get_cell p.1 p.2 ≠ None.

(** The pointer the events of a frame can use: a mappable position, or none
    yet, in which case the frame must not bring a left click. *)
Definition pointer_ok (pointer : option (float * float))
    (evs : list (Event * float * nat)) : Prop :=
  match pointer with
  | Some p => mappable p
  | None => ∀ now rnd, ¬ In (MOUSEBUTTONDOWN 1, now, rnd) evs
  end.

(** The events of the first of the frames [fs]. *)
Definition first_events (fs : list Frame) : list (Event * float * nat) :=
  match fs with
  | f :: _ => frame_events f
  | [] => []
  end.

(** A frame that brings one left click. *)
Definition click_frame : Frame :=
  mkFrame [(MOUSEBUTTONDOWN 1, 1.0%float, 0%nat)] (0%float, 0%float) 0.016%float.

(** A frame with a left click. *)
Definition has_left_click (f : Frame) : Prop :=
  ∃ now rnd, In (MOUSEBUTTONDOWN 1, now, rnd) (frame_events f).

(** Two frames: nothing happens in the first; the second brings the click
    on "Play as X" and a click on the board. *)
Definition two_frames : list Frame :=
  [ mkFrame [] (0.5, 0.7) 0.016;
    mkFrame [(MOUSEBUTTONDOWN 1, 1.0, 0%nat)] (-0.7, -0.7) 0.016;
    mkFrame [(MOUSEBUTTONDOWN 1, 2.0, 0%nat)] (0, 0) 0.016 ]%float.

(** * Proofs *)

(** ** The board as a 3x3 grid *)

Lemma board_ok_grid (b : Board) :
  board_ok b → ∃ a0 a1 a2 a3 a4 a5 a6 a7 a8, b = grid a0 a1 a2 a3 a4 a5 a6 a7 a8.
Proof.
  intros [Hlen Hrows].
  destruct b as [|r0 [|r1 [|r2 [|]]]]; try discriminate Hlen.
  inversion_clear Hrows as [|? ? H0 Hrows1].
  inversion_clear Hrows1 as [|? ? H1 Hrows2].
  inversion_clear Hrows2 as [|? ? H2 _].
  destruct r0 as [|a0 [|a1 [|a2 [|]]]]; try discriminate H0.
  destruct r1 as [|a3 [|a4 [|a5 [|]]]]; try discriminate H1.
  destruct r2 as [|a6 [|a7 [|a8 [|]]]]; try discriminate H2.
  by exists a0, a1, a2, a3, a4, a5, a6, a7, a8.
Qed.

Lemma grid_ok a0 a1 a2 a3 a4 a5 a6 a7 a8 :
  board_ok (grid a0 a1 a2 a3 a4 a5 a6 a7 a8).
Proof. split; [done | repeat constructor]. Qed.

Lemma empty_board_ok : board_ok empty_board.
Proof. apply (grid_ok None None None None None None None None None). Qed.

(** Replace a well-shaped board by its nine cells. *)
Ltac as_grid H :=
  apply board_ok_grid in H;
  destruct H as (? & ? & ? & ? & ? & ? & ? & ? & ? & ->).

(** Split a cell of the board into its nine positions. *)
Ltac split_cell r c H :=
  let Hr := fresh "Hr" in
  let Hc := fresh "Hc" in
  assert (Hr : r = 0 ∨ r = 1 ∨ r = 2) by (unfold on_board in H; lia);
  assert (Hc : c = 0 ∨ c = 1 ∨ c = 2) by (unfold on_board in H; lia);
  clear H;
  destruct Hr as [-> | [-> | ->]]; destruct Hc as [-> | [-> | ->]].

Lemma on_board_all_cells r c : on_board r c ↔ In (r, c) all_cells.
Proof.
  split.
  - intros H. split_cell r c H; simpl; tauto.
  - simpl. unfold on_board. intros H.
    repeat (destruct H as [H | H]; [inversion H; lia |]). destruct H.
Qed.

Lemma board_get_ok b r c :
  board_ok b → on_board r c → ∃ v, board_get b r c = Some v.
Proof. intros Hb H. as_grid Hb. split_cell r c H; eexists; reflexivity. Qed.

Lemma board_set_ok b r c v :
  board_ok b → on_board r c → ∃ b', board_set b r c v = Some b' ∧ board_ok b'.
Proof.
  intros Hb H. as_grid Hb.
  split_cell r c H; (eexists; split; [reflexivity | apply grid_ok]).
Qed.

Lemma board_set_keeps_ok b r c v b' :
  board_ok b → on_board r c → board_set b r c v = Some b' → board_ok b'.
Proof.
  intros Hb H Hs. destruct (board_set_ok b r c v Hb H) as (b2 & Hs2 & Hok).
  congruence.
Qed.

Lemma board_get_set_eq b r c v b' :
  board_ok b → on_board r c → board_set b r c v = Some b' →
  board_get b' r c = Some v.
Proof.
  intros Hb H Hs. as_grid Hb.
  split_cell r c H; injection Hs as <-; reflexivity.
Qed.

Lemma board_get_set_ne b r c v b' r' c' :
  board_ok b → on_board r c → on_board r' c' → (r', c') ≠ (r, c) →
  board_set b r c v = Some b' → board_get b' r' c' = board_get b r' c'.
Proof.
  intros Hb H H' Hne Hs. as_grid Hb.
  split_cell r c H; injection Hs as <-;
    split_cell r' c' H'; first [reflexivity | by destruct Hne].
Qed.

(** Taking a placement back restores the board. *)
Lemma board_set_restore b r c v0 v b1 :
  board_ok b → on_board r c → board_get b r c = Some v0 →
  board_set b r c v = Some b1 → board_set b1 r c v0 = Some b.
Proof.
  intros Hb H Hg Hs. as_grid Hb.
  split_cell r c H; injection Hs as <-; injection Hg as <-; reflexivity.
Qed.

(** ** Win detection against the eight lines *)

(** Case analysis on every cell variable a goal still inspects. *)
Ltac cell_cases :=
  repeat match goal with
         | |- context [match ?a with _ => _ end] => is_var a; destruct a as [[]|]
         | |- context [sym_eqb ?a _] => is_var a; destruct a as [[]|]
         | |- context [sym_eqb _ ?a] => is_var a; destruct a as [[]|]
         end.

Lemma row_spec b i :
  board_ok b → 0 ≤ i ≤ 2 →
  return_if_line b i 0 i 1 i 2
  = Some (returned (spec_line_mark b ((i, 0), (i, 1), (i, 2)))).
Proof.
  intros Hb Hi. as_grid Hb.
  assert (Hc : i = 0 ∨ i = 1 ∨ i = 2) by lia.
  destruct Hc as [-> | [-> | ->]]; cbv; cell_cases; reflexivity.
Qed.

Lemma column_spec b i :
  board_ok b → 0 ≤ i ≤ 2 →
  return_if_line b 0 i 1 i 2 i
  = Some (returned (spec_line_mark b ((0, i), (1, i), (2, i)))).
Proof.
  intros Hb Hi. as_grid Hb.
  assert (Hc : i = 0 ∨ i = 1 ∨ i = 2) by lia.
  destruct Hc as [-> | [-> | ->]]; cbv; cell_cases; reflexivity.
Qed.

Lemma diagonal_spec b :
  board_ok b →
  return_if_line b 0 0 1 1 2 2
  = Some (returned (spec_line_mark b ((0, 0), (1, 1), (2, 2)))).
Proof. intros Hb. as_grid Hb. cbv; cell_cases; reflexivity. Qed.

Lemma antidiagonal_spec b :
  board_ok b →
  return_if_line b 0 2 1 1 2 0
  = Some (returned (spec_line_mark b ((0, 2), (1, 1), (2, 0)))).
Proof. intros Hb. as_grid Hb. cbv; cell_cases; reflexivity. Qed.

(** [check_winner] returns the mark of the first complete line in the order
    rows, columns, diagonals, and [None] when no line is complete. *)
Lemma check_winner_spec b :
  board_ok b → check_winner b = Some (spec_first_line b spec_lines).
Proof.
  intros Hb. unfold check_winner, spec_lines.
  change (Py.range 3) with [0; 1; 2]. cbn [Py.for_return spec_first_line].
  rewrite !row_spec, !column_spec, diagonal_spec, antidiagonal_spec
    by (done || lia).
  repeat match goal with
         | |- context [spec_line_mark b ?l] =>
             let m := fresh "m" in set (m := spec_line_mark b l); clearbody m
         end.
  repeat match goal with
         | m : option mark |- _ => destruct m; cbn; [reflexivity |]
         end.
  reflexivity.
Qed.

Lemma check_winner_total b : board_ok b → ∃ w, check_winner b = Some w.
Proof. intros Hb. eexists. by apply check_winner_spec. Qed.

Lemma is_board_full_spec b : board_ok b → is_board_full b = spec_is_full b.
Proof.
  intros Hb. as_grid Hb. cbv.
  repeat match goal with
         | |- context [match ?a with _ => _ end] =>
             is_var a; destruct a; [| reflexivity]
         end.
  reflexivity.
Qed.

(** A full board has no empty cell, and conversely. *)
Lemma is_board_full_true b :
  board_ok b →
  is_board_full b = true ↔ ∀ r c, on_board r c → board_get b r c ≠ Some None.
Proof.
  intros Hb. as_grid Hb. split.
  - intros Hf r c H. cbv in Hf. split_cell r c H; cbv; intros [= ->];
      repeat match type of Hf with
             | context [match ?a with _ => _ end] => is_var a; destruct a
             end; discriminate.
  - intros H. cbv.
    repeat match goal with
           | |- context [match ?a with _ => _ end] =>
               is_var a; destruct a as [?|]
           end; try reflexivity; exfalso.
    all: first
      [ by apply (H 0 0) | by apply (H 0 1) | by apply (H 0 2)
      | by apply (H 1 0) | by apply (H 1 1) | by apply (H 1 2)
      | by apply (H 2 0) | by apply (H 2 1) | by apply (H 2 2) ].
Qed.

(** ** The winning-move search *)

#[local] Arguments check_winner : simpl never.
#[local] Arguments board_get : simpl never.
#[local] Arguments board_set : simpl never.
#[local] Arguments winning_cell : simpl never.

Lemma find_app_first {A} (f : A → bool) (l1 l2 : list A) :
  find f (l1 ++ l2)
  = match find f l1 with Some x => Some x | None => find f l2 end.
Proof. induction l1 as [|x l1 IH]; [done |]. cbn. by destruct (f x). Qed.

Lemma winning_cell_step b player i j :
  board_ok b → on_board i j →
  (board_get b i j = Some None ∧
   ∃ b1 w, board_set b i j player = Some b1 ∧ check_winner b1 = Some w ∧
           board_set b1 i j None = Some b ∧
           winning_cell b player (i, j) = sym_eqb w player)
  ∨ (∃ m, board_get b i j = Some (Some m) ∧ winning_cell b player (i, j) = false).
Proof.
  intros Hb H. unfold winning_cell; cbn [fst snd].
  destruct (board_get_ok b i j Hb H) as [[m|] Hg]; rewrite Hg.
  - right. by exists m.
  - left. split; [done |].
    destruct (board_set_ok b i j player Hb H) as (b1 & Hs & Hb1).
    destruct (check_winner_total b1 Hb1) as [w Hw].
    exists b1, w. rewrite Hs, Hw. repeat split; try done.
    by apply (board_set_restore b i j None player).
Qed.

(** The inner loop leaves the board as it found it and returns the first
    winning cell of the row. *)
Lemma find_winning_move_cols_spec b player i js :
  board_ok b → 0 ≤ i ≤ 2 → Forall (λ j, 0 ≤ j ≤ 2) js →
  find_winning_move_cols b player i js
  = Some (b, find (winning_cell b player) (map (pair i) js)).
Proof.
  intros Hb Hi Hjs. induction Hjs as [|j js Hj _ IH]; [done |].
  cbn [find_winning_move_cols map find].
  destruct (winning_cell_step b player i j Hb) as
    [(Hg & b1 & w & Hs & Hw & Hr & Hwin) | (m & Hg & Hwin)]; [done | |];
    rewrite Hg, Hwin; cbn.
  - rewrite Hs; cbn. rewrite Hw; cbn. destruct (sym_eqb w player).
    + by rewrite Hr.
    + rewrite Hr; cbn. apply IH.
  - apply IH.
Qed.

Lemma find_winning_move_rows_spec b player is_ :
  board_ok b → Forall (λ i, 0 ≤ i ≤ 2) is_ →
  find_winning_move_rows b player is_
  = Some (b, find (winning_cell b player)
               (flat_map (λ i, map (pair i) (Py.range 3)) is_)).
Proof.
  intros Hb His. induction His as [|i is_ Hi _ IH]; [done |].
  cbn [find_winning_move_rows flat_map].
  rewrite find_winning_move_cols_spec by
    (try done; repeat constructor; lia).
  rewrite find_app_first.
  destruct (find (winning_cell b player) (map (pair i) (Py.range 3))); [done |].
  apply IH.
Qed.

(** [find_winning_move] leaves the board as it found it and returns the
    first cell, in row-major order, that passes the test. *)
Lemma find_winning_move_spec b player :
  board_ok b →
  find_winning_move b player = Some (b, find (winning_cell b player) all_cells).
Proof.
  intros Hb. unfold find_winning_move.
  rewrite find_winning_move_rows_spec by (try done; repeat constructor; lia).
  reflexivity.
Qed.

(** What [find] tells about a scan of the nine cells. *)
Lemma find_all_cells_Some (f : Z * Z → bool) r c :
  find f all_cells = Some (r, c) →
  on_board r c ∧ f (r, c) = true ∧
  ∀ r' c', on_board r' c' → row_major r' c' < row_major r c → f (r', c') = false.
Proof.
  intros Hf. pose proof (find_some _ _ Hf) as [Hin Htrue].
  apply on_board_all_cells in Hin. repeat split; try done; try apply Hin.
  intros r' c' H' Hlt. unfold all_cells in Hf. cbn [find] in Hf.
  repeat match type of Hf with
         | context [if f ?p then _ else _] =>
             let E := fresh "E" in destruct (f p) eqn:E
         end;
    try discriminate Hf; injection Hf as <- <-;
    unfold row_major in Hlt; split_cell r' c' H'; first [done | lia].
Qed.

Lemma find_all_cells_None (f : Z * Z → bool) :
  find f all_cells = None → ∀ r c, on_board r c → f (r, c) = false.
Proof.
  intros Hf r c H. apply on_board_all_cells in H.
  by apply (find_none _ _ Hf).
Qed.

(** The test of the search, as a proposition. *)
Lemma winning_cell_wins_at b m r c :
  board_ok b → on_board r c →
  winning_cell b (Some m) (r, c) = true ↔ wins_at b m r c.
Proof.
  intros Hb H. unfold wins_at.
  destruct (winning_cell_step b (Some m) r c Hb H) as
    [(Hg & b1 & w & Hs & Hw & Hr & Hwin) | (m' & Hg & Hwin)]; rewrite Hwin.
  - split.
    + intros Heq. repeat split; try done; try apply H.
      exists b1. split; [done |]. rewrite Hw. by destruct w as [[]|], m.
    + intros (_ & _ & b' & Hs' & Hw'). rewrite Hs in Hs'. injection Hs' as <-.
      rewrite Hw in Hw'. injection Hw' as ->. by destruct m.
  - split; [done |]. intros (_ & Hg' & _). congruence.
Qed.

(** ** The computer's move *)

Lemma choice_In {A} (rnd : nat) (l : list A) :
  l ≠ [] → ∃ x, Py.choice rnd l = Some x ∧ In x l.
Proof.
  intros Hl. unfold Py.choice.
  assert (Hlt : (rnd `mod` length l < length l)%nat).
  { apply Nat.mod_upper_bound. by destruct l. }
  destruct (lookup_lt_is_Some_2 l _ Hlt) as [x Hx].
  exists x. split; [done |]. apply list_elem_of_In. by eapply list_elem_of_lookup_2.
Qed.

Lemma empty_among_spec b cells :
  board_ok b → Forall (λ p, on_board p.1 p.2) cells →
  ∃ l, empty_among b cells = Some l ∧
       ∀ r c, In (r, c) l ↔ In (r, c) cells ∧ board_get b r c = Some None.
Proof.
  intros Hb Hcells. induction Hcells as [|[r0 c0] cells H0 _ (l & Hl & IH)].
  - exists []. split; [done |]. cbn. tauto.
  - cbn [fst snd] in H0. cbn [empty_among].
    destruct (board_get_ok b r0 c0 Hb H0) as [v Hv]. rewrite Hv, Hl. cbn.
    eexists. split; [reflexivity |]. intros r c.
    destruct v as [m|]; cbn; rewrite IH; split.
    + tauto.
    + intros [[[= <- <-] | Hin] Hg]; [congruence | tauto].
    + intros [[= <- <-] | [Hin Hg]]; [tauto | tauto].
    + tauto.
Qed.

Lemma play_at_ok s r c :
  board_ok (board s) → on_board r c →
  ∃ b', board_set (board s) r c (computer_symbol s) = Some b' ∧
        play_at s r c = Some (set_last_computer_move (set_board s b') (r, c), true).
Proof.
  intros Hb H. unfold play_at.
  destruct (board_set_ok (board s) r c (computer_symbol s) Hb H) as (b' & Hs & _).
  exists b'. by rewrite Hs.
Qed.

(** [computer_move] either plays one empty cell and reports success, or
    finds the board full and reports failure. *)
Lemma computer_move_cases s rnd :
  board_ok (board s) →
  (∃ r c b', on_board r c ∧ board_get (board s) r c = Some None ∧
             board_set (board s) r c (computer_symbol s) = Some b' ∧
             computer_move s rnd
             = Some (set_last_computer_move (set_board s b') (r, c), true))
  ∨ (is_board_full (board s) = true ∧
     computer_move s rnd = Some (set_last_computer_move s (-1, -1), false)).
Proof.
  destruct s as [b cp go w im sw fa ps cs pc cc ap lt sc mh lc].
  cbn [board computer_symbol]. intros Hb.
  assert (Hplay : ∀ r c, on_board r c → board_get b r c = Some None →
    ∃ b', on_board r c ∧ board_get b r c = Some None ∧
          board_set b r c cs = Some b' ∧
          play_at (mkTicTacToe b cp go w im sw fa ps cs pc cc ap lt sc mh (-1, -1)) r c
          = Some (mkTicTacToe b' cp go w im sw fa ps cs pc cc ap lt sc mh (r, c), true)).
  { intros r c H Hg.
    destruct (play_at_ok (mkTicTacToe b cp go w im sw fa ps cs pc cc ap lt sc mh (-1, -1))
                r c Hb H) as (b' & Hs & Hp).
    by exists b'. }
  unfold computer_move.
  cbn [board computer_symbol player_symbol set_last_computer_move set_board
       current_player game_over winner in_menu show_winner_screen fade_alpha
       player_color computer_color animation_progress last_move_time score
       move_history last_computer_move].
  rewrite find_winning_move_spec by done. cbn [mbind option_bind].
  destruct (find (winning_cell b cs) all_cells) as [[r c]|] eqn:Hwin.
  { apply find_all_cells_Some in Hwin as (H & Htrue & _).
    left. exists r, c. apply Hplay; [done |].
    unfold winning_cell in Htrue; cbn [fst snd] in Htrue.
    by destruct (board_get b r c) as [[?|]|]. }
  rewrite find_winning_move_spec by done. cbn [mbind option_bind].
  destruct (find (winning_cell b ps) all_cells) as [[r c]|] eqn:Hblock.
  { apply find_all_cells_Some in Hblock as (H & Htrue & _).
    left. exists r, c. apply Hplay; [done |].
    unfold winning_cell in Htrue; cbn [fst snd] in Htrue.
    by destruct (board_get b r c) as [[?|]|]. }
  destruct (board_get_ok b 1 1 Hb) as [v Hv]; [unfold on_board; lia |].
  rewrite Hv; cbn [mbind option_bind].
  destruct v as [m11|]; cbn [is_None].
  2:{ left. exists 1, 1. apply Hplay; [unfold on_board; lia | done]. }
  destruct (empty_among_spec b corners Hb) as (lc' & Hlc & Hcorners).
  { repeat constructor; cbn; lia. }
  rewrite Hlc; cbn [mbind option_bind].
  destruct lc' as [|p lc'].
  2:{ destruct (choice_In rnd (p :: lc')) as ([r c] & Hch & Hin); [done |].
      rewrite Hch; cbn [mbind option_bind].
      apply Hcorners in Hin as [Hin Hg].
      left. exists r, c. apply Hplay; [| done].
      cbn in Hin. unfold on_board.
      repeat (destruct Hin as [Hin | Hin]; [inversion Hin; lia |]). destruct Hin. }
  destruct (empty_among_spec b edges Hb) as (le & Hle & Hedges).
  { repeat constructor; cbn; lia. }
  rewrite Hle; cbn [mbind option_bind].
  destruct le as [|p le].
  2:{ destruct (choice_In rnd (p :: le)) as ([r c] & Hch & Hin); [done |].
      rewrite Hch; cbn [mbind option_bind].
      apply Hedges in Hin as [Hin Hg].
      left. exists r, c. apply Hplay; [| done].
      cbn in Hin. unfold on_board.
      repeat (destruct Hin as [Hin | Hin]; [inversion Hin; lia |]). destruct Hin. }
  right. split; [| done].
  apply is_board_full_true; [done |]. intros r c H Hg.
  split_cell r c H;
    match type of Hg with
    | board_get _ ?r ?c = _ =>
        first [ congruence
              | assert (Hin : In (r, c) corners) by (compute; tauto);
                exact (proj2 (Hcorners r c) (conj Hin Hg))
              | assert (Hin : In (r, c) edges) by (compute; tauto);
                exact (proj2 (Hedges r c) (conj Hin Hg)) ]
    end.
Qed.

(** ** The sample sessions evaluate to the states given for them *)

Lemma started_X_reached : started_X_play = Some started_X.
Proof. vm_compute. reflexivity. Qed.

Lemma started_O_reached : started_O_play = Some started_O.
Proof. vm_compute. reflexivity. Qed.

Lemma exchanged_reached : exchanged_play = Some exchanged.
Proof. vm_compute. reflexivity. Qed.

Lemma mid_round_reached : mid_round_play = Some mid_round.
Proof. vm_compute. reflexivity. Qed.

Lemma won_reached : won_play = Some won.
Proof. vm_compute. reflexivity. Qed.

(** ** Undo *)

Lemma pop_snoc {A} (l : list A) (x : A) : pop (l ++ [x]) = Some (x, l).
Proof. unfold pop. by rewrite last_snoc, removelast_last. Qed.

(** One round of the undo loop on a history that ends with a move on the
    board. *)
Lemma undo_one_snoc s h r c m :
  board_ok (board s) → on_board r c → move_history s = h ++ [(r, c, m)] →
  ∃ b', board_set (board s) r c None = Some b' ∧ board_ok b' ∧
        undo_one s = Some (set_board (set_move_history s h) b').
Proof.
  intros Hb H Hh. unfold undo_one. rewrite Hh, pop_snoc.
  destruct (board_set_ok (board s) r c None Hb H) as (b' & Hs & Hb').
  exists b'. split; [done |]. split; [done |].
  destruct h; cbn; by rewrite Hs.
Qed.

Lemma undo_last_move_short s :
  (length (move_history s) < 2)%nat → undo_last_move s = Some s.
Proof.
  intros Hlen. unfold undo_last_move.
  by rewrite (proj2 (Nat.leb_gt 2 (length (move_history s))) Hlen).
Qed.

(** ** Reset *)

Lemma announced_reached :
  update_animations (update_animations won 0.1) 0.1 = announced.
Proof. vm_compute. reflexivity. Qed.

(** [reset_game] always succeeds: the "player chose O" branch is never
    entered, since the method has just set [current_player] and [in_menu]. *)
Lemma reset_game_spec s rnd :
  reset_game s rnd = Some (fresh_menu (animation_progress s) (last_move_time s)).
Proof. reflexivity. Qed.

(** ** Binary64 comparisons and the integer part *)

Lemma digits2_pos_bounds (m : positive) :
  2 ^ (Z.pos (digits2_pos m) - 1) ≤ Z.pos m < 2 ^ Z.pos (digits2_pos m).
Proof.
  induction m as [p IH | p IH |]; cbn [digits2_pos].
  - rewrite Pos2Z.inj_succ.
    replace (Z.succ (Z.pos (digits2_pos p)) - 1) with (Z.succ (Z.pos (digits2_pos p) - 1)) by lia.
    rewrite !Z.pow_succ_r by lia. lia.
  - rewrite Pos2Z.inj_succ.
    replace (Z.succ (Z.pos (digits2_pos p)) - 1) with (Z.succ (Z.pos (digits2_pos p) - 1)) by lia.
    rewrite !Z.pow_succ_r by lia. lia.
  - cbn. lia.
Qed.

Lemma Prim2SF_0 : Prim2SF 0 = S754_zero false. Proof. reflexivity. Qed.
Lemma Prim2SF_1 : Prim2SF 1 = S754_finite false 4503599627370496 (-52). Proof. reflexivity. Qed.
Lemma Prim2SF_2 : Prim2SF 2 = S754_finite false 4503599627370496 (-51). Proof. reflexivity. Qed.
Lemma Prim2SF_3 : Prim2SF 3 = S754_finite false 6755399441055744 (-51). Proof. reflexivity. Qed.

(** A valid finite binary64 number has at most 53 digits, and exactly 53
    above the subnormal exponent. *)
Lemma valid_finite s m e :
  valid_binary (S754_finite s m e) = true →
  Z.pos m < 2 ^ 53 ∧ (e ≠ -1074 → 2 ^ 52 ≤ Z.pos m).
Proof.
  unfold SpecFloat.valid_binary, bounded, canonical_mantissa, fexp, SpecFloat.emin, prec, emax.
  intros H. apply andb_prop in H as [H _]. apply Z.eqb_eq in H.
  pose proof (digits2_pos_bounds m) as [Hlo Hhi].
  set (d := Z.pos (digits2_pos m)) in *.
  assert (Hd : 0 < d) by (unfold d; lia).
  split.
  - assert (d ≤ 53) by lia.
    eapply Z.lt_le_trans; [exact Hhi |]. apply Z.pow_le_mono_r; lia.
  - intros Hne. assert (d = 53) by lia.
    replace (d - 1) with 52 in Hlo by lia. exact Hlo.
Qed.

Lemma pos_compare_cont_Eq (p q : positive) :
  Pos.compare_cont Eq p q = (Z.pos p ?= Z.pos q).
Proof. reflexivity. Qed.

(** The integer part of a number in [0, 3) is its floor: 0, 1 or 2. *)
Lemma int_below_three (v : float) :
  (0 <=? v)%float = true → (v <? 3)%float = true →
  ∃ k, Py.int v = Some k ∧ floor_is v k.
Proof.
  unfold floor_is, Py.int. rewrite !leb_spec, !ltb_spec.
  rewrite Prim2SF_0, Prim2SF_1, Prim2SF_2, Prim2SF_3.
  pose proof (Prim2SF_valid v) as Hvalid.
  destruct (Prim2SF v) as [s | s | | s m e]; intros H0 H3.
  - exists 0. split; [done |]. left. by destruct s.
  - destruct s; discriminate.
  - discriminate.
  - destruct s; [discriminate |]. clear H0.
    apply valid_finite in Hvalid as [Hhi Hlo].
    unfold SFltb, SFleb, SFcompare in *. rewrite !pos_compare_cont_Eq in *.
    destruct (Z.compare_spec e (-51)) as [-> | He | He]; [| | discriminate H3].
    + (* 2 <= v < 3 *)
      destruct (Z.compare_spec (Z.pos m) 6755399441055744) as [| Hm |];
        try discriminate H3.
      specialize (Hlo ltac:(lia)). change (2 ^ 52) with 4503599627370496 in Hlo.
      exists 2. split.
      * cbn [Z.leb Z.compare]. do 2 f_equal.
        change (2 ^ (- -51)) with 2251799813685248.
        apply Z.le_antisymm.
        -- apply Z.lt_succ_r. apply Z.div_lt_upper_bound; lia.
        -- apply Z.div_le_lower_bound; lia.
      * right; right. split; [done |]. split; [| done].
        rewrite Z.compare_refl.
        destruct (Z.compare_spec 4503599627370496 (Z.pos m)); (done || lia).
    + destruct (Z.eq_dec e (-52)) as [-> | Hne].
      * (* 1 <= v < 2 *)
        specialize (Hlo ltac:(lia)). change (2 ^ 52) with 4503599627370496 in Hlo.
        change (2 ^ 53) with 9007199254740992 in Hhi.
        exists 1. split.
        -- cbn [Z.leb Z.compare]. do 2 f_equal.
           change (2 ^ (- -52)) with 4503599627370496.
           apply Z.le_antisymm.
           ++ apply Z.lt_succ_r. apply Z.div_lt_upper_bound; lia.
           ++ apply Z.div_le_lower_bound; lia.
        -- right; left. split; [done |]. rewrite Z.compare_refl.
           split; [| done].
           destruct (Z.compare_spec 4503599627370496 (Z.pos m)); (done || lia).
      * (* 0 <= v < 1 *)
        exists 0. split.
        -- destruct (Z.leb_spec 0 e); [lia |]. do 2 f_equal.
           apply Z.div_small. split; [lia |].
           eapply Z.lt_le_trans; [exact Hhi |]. apply Z.pow_le_mono_r; lia.
        -- left. split; [done |]. split; [done |].
           by rewrite (proj2 (Z.compare_lt_iff e (-52))) by lia.
Qed.

Lemma SFcompare_antisym (f g : spec_float) :
  SFcompare g f = CompOpp <$> SFcompare f g.
Proof.
  destruct f as [s | s | | s m e], g as [s' | s' | | s' m' e'];
    try done; try (by destruct s); try (by destruct s'); try (by destruct s, s').
  cbn. destruct s, s'; try done; f_equal.
  - rewrite (Z.compare_antisym e' e).
    destruct (e' ?= e); cbn; try done.
    by rewrite (Pos.compare_cont_antisym m m' Eq).
  - rewrite (Z.compare_antisym e' e).
    destruct (e' ?= e); cbn; try done.
    by rewrite (Pos.compare_cont_antisym m m' Eq).
Qed.

Lemma ltb_leb_false (a b : float) :
  (a <? b)%float = true → (b <=? a)%float = false.
Proof.
  rewrite ltb_spec, leb_spec. unfold SFltb, SFleb.
  rewrite (SFcompare_antisym (Prim2SF a) (Prim2SF b)).
  by destruct (SFcompare (Prim2SF a) (Prim2SF b)) as [[]|].
Qed.

Lemma leb_ltb_false (a b : float) :
  (a <=? b)%float = true → (b <? a)%float = false.
Proof.
  rewrite ltb_spec, leb_spec. unfold SFltb, SFleb.
  rewrite (SFcompare_antisym (Prim2SF a) (Prim2SF b)).
  by destruct (SFcompare (Prim2SF a) (Prim2SF b)) as [[]|].
Qed.

Lemma ltb_ltb_false (a b : float) :
  (a <? b)%float = true → (b <? a)%float = false.
Proof.
  rewrite !ltb_spec. unfold SFltb.
  rewrite (SFcompare_antisym (Prim2SF a) (Prim2SF b)).
  by destruct (SFcompare (Prim2SF a) (Prim2SF b)) as [[]|].
Qed.

(** Two numbers (not NaN) are comparable. *)
Lemma not_ltb_leb (a b : float) :
  (a =? a)%float = true → (b =? b)%float = true →
  (a <? b)%float = false → (b <=? a)%float = true.
Proof.
  rewrite !FloatAxioms.eqb_spec, ltb_spec, leb_spec. unfold SFeqb, SFltb, SFleb.
  rewrite (SFcompare_antisym (Prim2SF a) (Prim2SF b)).
  destruct (Prim2SF a) as [s | s | | s m e], (Prim2SF b) as [s' | s' | | s' m' e'];
    try done; intros _ _;
    by destruct (SFcompare _ _) as [[]|] eqn:E.
Qed.

(** 3.0 is the only number that is neither below nor above 3. *)
Lemma int_three (v : float) :
  (3 <=? v)%float = true → (3 <? v)%float = false → Py.int v = Some 3.
Proof.
  unfold Py.int. rewrite leb_spec, ltb_spec, Prim2SF_3. unfold SFleb, SFltb.
  destruct (Prim2SF v) as [s | s | | s m e]; try done; try (by destruct s).
  unfold SFcompare. destruct s; [done |].
  destruct (Z.compare_spec (-51) e) as [<- | He | He]; try done.
  destruct (Pos.compare_cont Eq 6755399441055744 m) eqn:E; try done.
  apply Pos.compare_eq in E as <-. intros _ _. reflexivity.
Qed.

Lemma floor_is_range v k : floor_is v k → 0 ≤ k ≤ 2.
Proof. unfold floor_is. intros [(-> & _) | [(-> & _) | (-> & _)]]; lia. Qed.

(** What one axis contributes once the first guard of [get_cell] let it
    through: a floor in 0..2, or exactly 3. *)
Lemma int_within_guard (v : float) :
  (v =? v)%float = true → (v <? 0)%float = false → (3 <? v)%float = false →
  ∃ k, Py.int v = Some k ∧
       (((v <? 3)%float = true ∧ floor_is v k)
        ∨ ((3 <=? v)%float = true ∧ k = 3)).
Proof.
  intros Hnum H0 H3.
  assert (Hle0 : (0 <=? v)%float = true) by (by apply not_ltb_leb).
  assert (Hle3 : (v <=? 3)%float = true) by (by apply not_ltb_leb).
  destruct (v <? 3)%float eqn:Hlt.
  - destruct (int_below_three v Hle0 Hlt) as (k & Hk & Hfl).
    exists k. split; [done |]. by left.
  - assert (Hge : (3 <=? v)%float = true) by (by apply not_ltb_leb).
    exists 3. split; [by apply int_three |]. by right.
Qed.

(** * The claims *)

(** C4. For every board, the evaluator checks the three rows, then the
    three columns, then the two diagonals for three equal non-empty cells
    and gives [Win] of the mark on the first such line; when no line is
    complete it gives [Draw] on a full board and no result otherwise: the
    outcome [handle_click] reads off [check_winner] and [is_board_full] is
    the evaluator of the specification. *)
Theorem round_outcome_is_spec_evaluate (b : Board) :
  board_ok b → round_outcome b = Some (spec_evaluate b).
Proof.
  intros Hb. unfold round_outcome, spec_evaluate.
  rewrite check_winner_spec, is_board_full_spec by done. cbn.
  by destruct (spec_first_line b spec_lines).
Qed.

Lemma round_outcome_is_spec_evaluate_witness :
  board_ok two_lines ∧ round_outcome two_lines = Some (spec_evaluate two_lines).
Proof.
  split.
  - apply grid_ok.
  - apply (round_outcome_is_spec_evaluate two_lines). apply grid_ok.
Defined.

(** C5. On every board with an empty cell where placing the computer's
    mark wins, [computer_move] plays the first such cell of the row-major
    scan, and the search [find_winning_move] hands the board back exactly
    as it received it. *)
Theorem computer_move_takes_first_win (s : TicTacToe) (m : mark) (rnd : nat) (r c : Z) :
  board_ok (board s) → computer_symbol s = Some m → wins_at (board s) m r c →
  ∃ r0 c0 b',
    wins_at (board s) m r0 c0 ∧
    (∀ r' c', wins_at (board s) m r' c' → row_major r0 c0 ≤ row_major r' c') ∧
    find_winning_move (board s) (Some m) = Some (board s, Some (r0, c0)) ∧
    board_set (board s) r0 c0 (Some m) = Some b' ∧
    computer_move s rnd
    = Some (set_last_computer_move (set_board s b') (r0, c0), true).
Proof.
  intros Hb Hcs Hw.
  pose proof Hw as (H & _).
  apply winning_cell_wins_at in Hw; [| done | done].
  destruct (find (winning_cell (board s) (Some m)) all_cells) as [[r0 c0]|] eqn:Hf.
  2:{ rewrite (find_all_cells_None _ Hf r c H) in Hw. discriminate Hw. }
  pose proof (find_all_cells_Some _ _ _ Hf) as (H0 & Htrue & Hmin).
  destruct (board_set_ok (board s) r0 c0 (Some m) Hb H0) as (b' & Hs & _).
  assert (Hw0 : wins_at (board s) m r0 c0) by (by apply winning_cell_wins_at).
  exists r0, c0, b'. split; [exact Hw0 |]. split; [| split; [| split; [done |]]].
  - intros r' c' Hw'. pose proof Hw' as (H' & _).
    apply winning_cell_wins_at in Hw'; [| done | done].
    destruct (Z.lt_ge_cases (row_major r' c') (row_major r0 c0)) as [Hlt | Hge];
      [| lia].
    rewrite (Hmin r' c' H' Hlt) in Hw'. discriminate Hw'.
  - rewrite find_winning_move_spec by done. by rewrite Hf.
  - destruct s as [b cp go w im sw fa ps cs pc cc ap lt sc mh lc].
    cbn [board computer_symbol] in *. subst cs. unfold computer_move.
    cbn [board computer_symbol set_last_computer_move set_board
         current_player game_over winner in_menu show_winner_screen fade_alpha
         player_symbol player_color computer_color animation_progress
         last_move_time score move_history last_computer_move].
    rewrite find_winning_move_spec by done. cbn [mbind option_bind].
    rewrite Hf. unfold play_at.
    cbn [board computer_symbol set_last_computer_move set_board
         current_player game_over winner in_menu show_winner_screen fade_alpha
         player_symbol player_color computer_color animation_progress
         last_move_time score move_history last_computer_move].
    by rewrite Hs.
Qed.

Lemma computer_move_takes_first_win_witness :
  board_ok (board mid_round) ∧ computer_symbol mid_round = Some O ∧
  wins_at (board mid_round) O 1 2 ∧
  ∃ r0 c0 b',
    wins_at (board mid_round) O r0 c0 ∧
    (∀ r' c', wins_at (board mid_round) O r' c' →
              row_major r0 c0 ≤ row_major r' c') ∧
    find_winning_move (board mid_round) (Some O)
    = Some (board mid_round, Some (r0, c0)) ∧
    board_set (board mid_round) r0 c0 (Some O) = Some b' ∧
    computer_move mid_round 0
    = Some (set_last_computer_move (set_board mid_round b') (r0, c0), true).
Proof.
  assert (Hb : board_ok (board mid_round)) by (vm_compute; repeat constructor).
  assert (Hw : wins_at (board mid_round) O 1 2).
  { split; [unfold on_board; lia |]. split; [reflexivity |].
    eexists. split; reflexivity. }
  split; [exact Hb |]. split; [reflexivity |]. split; [exact Hw |].
  apply (computer_move_takes_first_win mid_round O 0%nat 1 2 Hb eq_refl Hw).
Defined.

(** C6. On every board that is not full, [computer_move] selects a cell,
    the cell was empty before the selection, and the method reports
    success; it reports failure only when no empty cell remains. *)
Theorem computer_move_succeeds_unless_full (s : TicTacToe) (rnd : nat) :
  board_ok (board s) →
  (is_board_full (board s) = false →
   ∃ s' r c, computer_move s rnd = Some (s', true) ∧
             last_computer_move s' = (r, c) ∧ on_board r c ∧
             board_get (board s) r c = Some None)
  ∧ (∀ s', computer_move s rnd = Some (s', false) →
           is_board_full (board s) = true).
Proof.
  intros Hb.
  destruct (computer_move_cases s rnd Hb) as
    [(r & c & b' & H & Hg & Hs & Hm) | (Hfull & Hm)]; rewrite Hm.
  - split.
    + intros _. by eexists _, r, c.
    + intros s' [=].
  - split.
    + intros Hnot. congruence.
    + done.
Qed.

Lemma computer_move_succeeds_unless_full_witness :
  board_ok (board mid_round) ∧
  (is_board_full (board mid_round) = false →
   ∃ s' r c, computer_move mid_round 0 = Some (s', true) ∧
             last_computer_move s' = (r, c) ∧ on_board r c ∧
             board_get (board mid_round) r c = Some None)
  ∧ (∀ s', computer_move mid_round 0 = Some (s', false) →
           is_board_full (board mid_round) = true).
Proof.
  assert (Hb : board_ok (board mid_round)) by (vm_compute; repeat constructor).
  split; [exact Hb |].
  apply (computer_move_succeeds_unless_full mid_round 0%nat Hb).
Defined.

(** C10. Whenever [computer_move] reports success, exactly one board cell
    changed: the chosen cell went from empty to the computer's mark, and
    the other eight cells hold what they held before the call. *)
Theorem computer_move_frame (s s' : TicTacToe) (m : mark) (rnd : nat) :
  board_ok (board s) → computer_symbol s = Some m →
  computer_move s rnd = Some (s', true) →
  ∃ r c, last_computer_move s' = (r, c) ∧ on_board r c ∧
         board_get (board s) r c = Some None ∧
         board_get (board s') r c = Some (Some m) ∧
         ∀ r' c', on_board r' c' → (r', c') ≠ (r, c) →
                  board_get (board s') r' c' = board_get (board s) r' c'.
Proof.
  intros Hb Hcs Hm.
  destruct (computer_move_cases s rnd Hb) as
    [(r & c & b' & H & Hg & Hs & Hm') | (_ & Hm')];
    rewrite Hm' in Hm; [| discriminate Hm].
  injection Hm as <-. rewrite Hcs in Hs. exists r, c.
  change (board (set_last_computer_move (set_board s b') (r, c))) with b'.
  repeat split; try done; try apply H.
  - by apply (board_get_set_eq (board s) r c (Some m) b').
  - intros r' c' H' Hne.
    by apply (board_get_set_ne (board s) r c (Some m) b' r' c').
Qed.

Lemma computer_move_frame_witness :
  ∃ s', board_ok (board mid_round) ∧ computer_symbol mid_round = Some O ∧
        computer_move mid_round 0 = Some (s', true) ∧
        ∃ r c, last_computer_move s' = (r, c) ∧ on_board r c ∧
               board_get (board mid_round) r c = Some None ∧
               board_get (board s') r c = Some (Some O) ∧
               ∀ r' c', on_board r' c' → (r', c') ≠ (r, c) →
                        board_get (board s') r' c' = board_get (board mid_round) r' c'.
Proof.
  assert (Hb : board_ok (board mid_round)) by (vm_compute; repeat constructor).
  eexists. split; [exact Hb |]. split; [reflexivity |].
  assert (Hm : computer_move mid_round 0
               = Some (default init (fst <$> computer_move mid_round 0), true))
    by reflexivity.
  split; [exact Hm |].
  apply (computer_move_frame mid_round _ O 0%nat Hb eq_refl Hm).
Defined.


(** C7. In every state whose history ends with two moves on the board,
    undo removes exactly these two entries and clears their two cells, the
    later move first; the other cells keep their marks, the turn goes to
    the player, and when the two moves were placements on empty cells of a
    board [b0], the board is [b0] again. *)
Theorem undo_takes_back_two_moves (s : TicTacToe) (h : list Move)
    (r1 c1 r2 c2 : Z) (m1 m2 : cell) :
  board_ok (board s) → on_board r1 c1 → on_board r2 c2 →
  move_history s = h ++ [(r1, c1, m1); (r2, c2, m2)] →
  ∃ b1 b2 s',
    board_set (board s) r2 c2 None = Some b1 ∧
    board_set b1 r1 c1 None = Some b2 ∧
    undo_last_move s = Some s' ∧
    board s' = b2 ∧ move_history s' = h ∧
    current_player s' = true ∧ game_over s' = false ∧ winner s' = None ∧
    (∀ r c, on_board r c → (r, c) ≠ (r1, c1) → (r, c) ≠ (r2, c2) →
            board_get b2 r c = board_get (board s) r c) ∧
    (∀ b0 bp, board_ok b0 →
              board_get b0 r1 c1 = Some None → board_set b0 r1 c1 m1 = Some bp →
              board_get bp r2 c2 = Some None → board_set bp r2 c2 m2 = Some (board s) →
              b2 = b0).
Proof.
  intros Hb H1 H2 Hh.
  assert (Hlen : (2 <=? length (move_history s))%nat = true).
  { apply Nat.leb_le. rewrite Hh, length_app. cbn [length]. lia. }
  destruct (undo_one_snoc s (h ++ [(r1, c1, m1)]) r2 c2 m2 Hb H2) as (b1 & Hs1 & Hb1 & Hu1).
  { by rewrite Hh, <- app_assoc. }
  destruct (undo_one_snoc (set_board (set_move_history s (h ++ [(r1, c1, m1)])) b1)
              h r1 c1 m1 Hb1 H1 eq_refl) as (b2 & Hs2 & Hb2 & Hu2).
  cbn [board set_board set_move_history] in Hs2.
  exists b1, b2. eexists. split; [done |]. split; [done |].
  split. { unfold undo_last_move. rewrite Hlen, Hu1. cbn [mbind option_bind].
           rewrite Hu2. reflexivity. }
  cbn. repeat split; try done.
  - intros r c H Hne1 Hne2.
    rewrite (board_get_set_ne b1 r1 c1 None b2 r c) by done.
    by rewrite (board_get_set_ne (board s) r2 c2 None b1 r c).
  - intros b0 bp Hb0 Hg1 Hp1 Hg2 Hp2.
    pose proof (board_set_keeps_ok b0 r1 c1 m1 bp Hb0 H1 Hp1) as Hbp.
    pose proof (board_set_restore bp r2 c2 None m2 (board s) Hbp H2 Hg2 Hp2) as Hr2.
    rewrite Hs1 in Hr2. injection Hr2 as ->.
    pose proof (board_set_restore b0 r1 c1 None m1 bp Hb0 H1 Hg1 Hp1) as Hr1.
    rewrite Hs2 in Hr1. by injection Hr1.
Qed.

(** The instance of scenario 5: one player move and one reply on the empty
    board, then undo: board and history are empty again. *)
Lemma undo_takes_back_two_moves_witness :
  board_ok (board exchanged) ∧ on_board 0 0 ∧ on_board 1 1 ∧
  move_history exchanged = [] ++ [(0, 0, Some X); (1, 1, Some O)] ∧
  ∃ b1 b2 s',
    board_set (board exchanged) 1 1 None = Some b1 ∧
    board_set b1 0 0 None = Some b2 ∧
    undo_last_move exchanged = Some s' ∧
    board s' = b2 ∧ move_history s' = [] ∧
    current_player s' = true ∧ game_over s' = false ∧ winner s' = None ∧
    (∀ r c, on_board r c → (r, c) ≠ (0, 0) → (r, c) ≠ (1, 1) →
            board_get b2 r c = board_get (board exchanged) r c) ∧
    (∀ b0 bp, board_ok b0 →
              board_get b0 0 0 = Some None → board_set b0 0 0 (Some X) = Some bp →
              board_get bp 1 1 = Some None →
              board_set bp 1 1 (Some O) = Some (board exchanged) →
              b2 = b0).
Proof.
  assert (Hb : board_ok (board exchanged)) by (vm_compute; repeat constructor).
  assert (H1 : on_board 0 0) by (unfold on_board; lia).
  assert (H2 : on_board 1 1) by (unfold on_board; lia).
  split; [exact Hb |]. split; [exact H1 |]. split; [exact H2 |].
  split; [reflexivity |].
  apply (undo_takes_back_two_moves exchanged [] 0 0 1 1 (Some X) (Some O)
           Hb H1 H2 eq_refl).
Defined.

(** C3, as stated, fails: the round [won] has concluded, yet undo (called
    directly or by Ctrl+Z) takes the last two moves back and reopens the
    round. *)
Lemma undo_after_concluded_round :
  game_over won = true ∧
  ∃ s', undo_last_move won = Some s' ∧
        handle_event won true (KEYDOWN K_z true) 0 0 5 0 = Some (s', true) ∧
        s' ≠ won ∧ game_over s' = false ∧ winner s' = None ∧
        board s' = grid (Some X) None (Some O) None (Some O) None
                        (Some X) None (Some X) ∧
        length (move_history s') = 5%nat.
Proof.
  split; [reflexivity |]. eexists.
  split; [vm_compute; reflexivity |].
  split; [vm_compute; reflexivity |].
  split; [intros [=] |]. repeat split.
Qed.

(** C3, amended. Undo is a no-op, the whole state unchanged, whenever fewer
    than two moves are in the history: for the method itself, for Ctrl+Z
    in the game loop and for the undo button. *)
Theorem undo_rejected_when_short (s : TicTacToe) (running : bool)
    (x y now : float) (rnd : nat) :
  (length (move_history s) < 2)%nat →
  undo_last_move s = Some s ∧
  handle_event s running (KEYDOWN K_z true) x y now rnd = Some (s, running) ∧
  button_action s "undo" rnd = Some s.
Proof.
  intros Hlen. pose proof (undo_last_move_short s Hlen) as Hu.
  split; [exact Hu |]. split.
  - cbn [handle_event]. by rewrite Hu.
  - unfold button_action. cbn. exact Hu.
Qed.

Lemma undo_rejected_when_short_witness :
  (length (move_history started_X) < 2)%nat ∧
  undo_last_move started_X = Some started_X ∧
  handle_event started_X true (KEYDOWN K_z true) 0 0 1 0 = Some (started_X, true) ∧
  button_action started_X "undo" 0 = Some started_X.
Proof.
  assert (Hlen : (length (move_history started_X) < 2)%nat) by (cbn; lia).
  split; [exact Hlen |].
  apply (undo_rejected_when_short started_X true 0 0 1 0%nat Hlen).
Defined.

(** C2, as stated, fails: in the announced round the player has one win;
    the click on the winner screen's restart button leaves no win. *)
Lemma restart_loses_the_score :
  show_winner_screen announced = true ∧ game_over announced = true ∧
  score announced = mkScore 1 0 0 ∧
  is_point_in_rect (-0.3) (-0.25) restart_rect = true ∧
  ∃ s', handle_winner_screen_click announced (-0.3) (-0.25) 0 = Some s' ∧
        score s' = mkScore 0 0 0 ∧ score s' ≠ score announced.
Proof.
  repeat (split; [reflexivity |]). eexists.
  split; [vm_compute; reflexivity |]. split; [reflexivity |]. intros [=].
Qed.

(** C2, amended. In every state that shows the winner screen, faded in to
    0.7 or more, the click on its restart button resets the board to all
    empty, clears the move history, sets the three score counters to zero
    and returns to the menu; so do the restart button of the game bar and
    the space key. *)
Theorem restart_resets_board_history_score (s : TicTacToe) (x y : float) (rnd : nat) :
  show_winner_screen s = true → (fade_alpha s <? 0.7)%float = false →
  is_point_in_rect x y restart_rect = true →
  ∃ s', handle_winner_screen_click s x y rnd = Some s' ∧
        board s' = empty_board ∧ move_history s' = [] ∧
        score s' = zero_score ∧ in_menu s' = true ∧
        button_action s "restart" rnd
        = Some (set_animation_progress s' (animation_progress s)) ∧
        handle_event (set_game_over s true) true (KEYDOWN K_SPACE false) x y 0 rnd
        = Some (set_animation_progress s' (animation_progress s), true).
Proof.
  intros Hshow Hfade Hrect. exists (fresh_menu 0 (last_move_time s)).
  split.
  - unfold handle_winner_screen_click. rewrite Hshow, Hfade. cbn [negb orb].
    change ((-0.4)%float, (-0.3)%float, 0.3%float, 0.1%float) with restart_rect.
    rewrite Hrect. cbv zeta. rewrite reset_game_spec. reflexivity.
  - repeat split.
Qed.

Lemma restart_resets_board_history_score_witness :
  show_winner_screen announced = true ∧
  (fade_alpha announced <? 0.7)%float = false ∧
  is_point_in_rect (-0.3) (-0.25) restart_rect = true ∧
  ∃ s', handle_winner_screen_click announced (-0.3) (-0.25) 0 = Some s' ∧
        board s' = empty_board ∧ move_history s' = [] ∧
        score s' = zero_score ∧ in_menu s' = true ∧
        button_action announced "restart" 0
        = Some (set_animation_progress s' (animation_progress announced)) ∧
        handle_event (set_game_over announced true) true (KEYDOWN K_SPACE false)
          (-0.3) (-0.25) 0 0
        = Some (set_animation_progress s' (animation_progress announced), true).
Proof.
  split; [reflexivity |]. split; [reflexivity |]. split; [reflexivity |].
  apply (restart_resets_board_history_score announced (-0.3) (-0.25) 0%nat
           eq_refl eq_refl eq_refl).
Defined.

(** C1, the code at the failing input. The menu click on "Play as O" runs
    [computer_move] once, which takes the centre of the empty board, and
    leaves [current_player] at [False]: the method [handle_click] then
    ignores every click, and the game loop does not even call it for the
    click in the middle of the empty cell (0, 0). *)
Theorem play_as_O_never_gives_the_turn :
  (∀ rnd, handle_menu_click init 0.5 0.45 rnd = Some started_O) ∧
  board started_O = grid None None None None (Some X) None None None None ∧
  move_history started_O = [] ∧
  current_player started_O = false ∧ game_over started_O = false ∧
  get_cell (-0.7) (-0.7) = Some (0, 0) ∧
  board_get (board started_O) 0 0 = Some None ∧
  (∀ x y t rnd, handle_click started_O x y t rnd = Some started_O) ∧
  (∀ t rnd, handle_event started_O true (MOUSEBUTTONDOWN 1) (-0.7) (-0.7) t rnd
            = Some (started_O, true)).
Proof.
  split; [intros rnd; vm_compute; reflexivity |].
  do 6 (split; [reflexivity |]).
  split; [intros x y t rnd; reflexivity |].
  intros t rnd. vm_compute. reflexivity.
Qed.

(** C9, as stated, fails: the coordinate 1 lies in [-1, 1], its scaled
    value is 3, and [get_cell] answers with the sentinel, not with a cell. *)
Lemma get_cell_at_one :
  (-1 <=? 1)%float = true ∧ (1 <=? 1)%float = true ∧
  (-1 <=? 0)%float = true ∧ (0 <=? 1)%float = true ∧
  Py.int (scaled 1) = Some 3 ∧
  get_cell 1 0 = Some (-1, -1) ∧
  ¬ ∃ row col, get_cell 1 0 = Some (row, col) ∧ on_board row col.
Proof.
  do 6 (split; [reflexivity |]).
  intros (row & col & Hg & Hr & Hc).
  assert (Hs : get_cell 1 0 = Some (-1, -1)) by reflexivity.
  rewrite Hs in Hg. injection Hg as <- <-. lia.
Qed.

(** C9, amended. For coordinates whose scaled values [(coord + 1) * 1.5]
    are numbers: when both scaled values lie in [0, 3), [get_cell] returns
    the cell [(row, col)], each index in 0..2 and the floor of the scaled
    coordinate of its axis; when a scaled value is below 0, or 3 or more,
    it returns the sentinel [(-1, -1)]. *)
Theorem get_cell_spec (x y : float) :
  (scaled x =? scaled x)%float = true → (scaled y =? scaled y)%float = true →
  ((0 <=? scaled x)%float = true ∧ (scaled x <? 3)%float = true ∧
   (0 <=? scaled y)%float = true ∧ (scaled y <? 3)%float = true →
   ∃ row col, get_cell x y = Some (row, col) ∧ on_board row col ∧
              floor_is (scaled y) row ∧ floor_is (scaled x) col)
  ∧ ((scaled x <? 0)%float = true ∨ (3 <=? scaled x)%float = true ∨
     (scaled y <? 0)%float = true ∨ (3 <=? scaled y)%float = true →
     get_cell x y = Some (-1, -1)).
Proof.
  intros Hnx Hny. unfold get_cell. fold (scaled x) (scaled y).
  set (bx := scaled x) in *. set (by_ := scaled y) in *. split.
  - intros (Hx0 & Hx3 & Hy0 & Hy3).
    rewrite (leb_ltb_false _ _ Hx0), (ltb_ltb_false _ _ Hx3),
            (leb_ltb_false _ _ Hy0), (ltb_ltb_false _ _ Hy3). cbn [orb].
    destruct (int_below_three bx Hx0 Hx3) as (col & Hcol & Hfc).
    destruct (int_below_three by_ Hy0 Hy3) as (row & Hrow & Hfr).
    pose proof (floor_is_range _ _ Hfc). pose proof (floor_is_range _ _ Hfr).
    exists row, col. rewrite Hcol, Hrow. cbn [mbind option_bind].
    repeat split; try done; try lia.
    destruct (Z.ltb_spec row 0), (Z.ltb_spec 2 row), (Z.ltb_spec col 0),
             (Z.ltb_spec 2 col); (done || lia).
  - intros Hout.
    destruct (bx <? 0)%float eqn:Hx0; [done |].
    destruct (3 <? bx)%float eqn:Hx3; [done |].
    destruct (by_ <? 0)%float eqn:Hy0; [done |].
    destruct (3 <? by_)%float eqn:Hy3; [done |]. cbn [orb].
    destruct (int_within_guard bx Hnx Hx0 Hx3) as (col & Hcol & Hc).
    destruct (int_within_guard by_ Hny Hy0 Hy3) as (row & Hrow & Hr).
    rewrite Hcol, Hrow. cbn [mbind option_bind].
    assert (Hthree : row = 3 ∨ col = 3).
    { destruct Hc as [(Hlt & _) | (_ & ->)]; [| by right].
      destruct Hr as [(Hlt' & _) | (_ & ->)]; [| by left].
      apply ltb_leb_false in Hlt, Hlt'.
      destruct Hout as [? | [? | [? | ?]]]; congruence. }
    destruct (Z.ltb_spec row 0), (Z.ltb_spec 2 row), (Z.ltb_spec col 0),
             (Z.ltb_spec 2 col); (done || lia).
Qed.

Lemma get_cell_spec_witness :
  (∃ row col, get_cell 0 0.7 = Some (row, col) ∧ on_board row col ∧
              floor_is (scaled 0.7) row ∧ floor_is (scaled 0) col)
  ∧ get_cell 1 0 = Some (-1, -1).
Proof.
  split.
  - apply (proj1 (get_cell_spec 0 0.7 eq_refl eq_refl)).
    repeat split; reflexivity.
  - apply (proj2 (get_cell_spec 1 0 eq_refl eq_refl)).
    right; left. reflexivity.
Defined.

(** * Clicks, rounds and sessions *)

(** ** Accepted clicks *)

#[local] Arguments computer_move : simpl never.
#[local] Arguments conclude_if_decided : simpl never.
#[local] Arguments update_score : simpl never.
#[local] Arguments get_cell : simpl never.
#[local] Arguments settle : simpl never.

Lemma on_board_guard r c :
  on_board r c → (r <? 0) || (2 <? r) || (c <? 0) || (2 <? c) = false.
Proof.
  intros [Hr Hc].
  destruct (Z.ltb_spec r 0), (Z.ltb_spec 2 r), (Z.ltb_spec c 0), (Z.ltb_spec 2 c);
    (done || lia).
Qed.

Lemma conclude_if_decided_settle s w :
  check_winner (board s) = Some w →
  conclude_if_decided s = Some (settle s w, decided (board s) w).
Proof.
  intros Hw. unfold conclude_if_decided, settle, decided. rewrite Hw.
  cbn [mbind option_bind]. cbv zeta.
  change (winner (set_winner s w)) with w.
  change (board (set_winner s w)) with (board s).
  by destruct (is_not_None w || is_board_full (board s)).
Qed.

(** The first guards of [handle_click] passed, the method places the
    player's mark and runs the check. *)
Lemma handle_click_unfold s x y t rnd r c bp w :
  game_over s = false → current_player s = true →
  get_cell x y = Some (r, c) → on_board r c →
  (t - last_move_time s <? move_delay)%float = false →
  board_get (board s) r c = Some None →
  board_set (board s) r c (player_symbol s) = Some bp →
  check_winner bp = Some w →
  handle_click s x y t rnd
  = if decided bp w then Some (settle (after_player_move s r c t bp) w)
    else
      '(s2, moved) ← computer_move
                        (set_current_player (settle (after_player_move s r c t bp) w) false)
                        rnd;
      s3 ← (if (moved : bool) then
              let '(comp_row, comp_col) := last_computer_move s2 in
              let s2 := set_move_history s2
                          (move_history s2 ++ [(comp_row, comp_col, computer_symbol s2)]) in
              let s2 := set_animation_progress s2 0%float in
              '(s2, _) ← conclude_if_decided s2;
              Some s2
            else Some s2);
      Some (set_current_player s3 true).
Proof.
  intros Hgo Hcp Hcell H Hcool Hg Hs Hw.
  unfold handle_click. rewrite Hgo, Hcp. cbn [negb orb].
  rewrite Hcell. cbn [mbind option_bind].
  rewrite (on_board_guard r c H), Hcool, Hg. cbn [mbind option_bind is_None].
  rewrite Hs. cbn [mbind option_bind]. cbv zeta.
  match goal with
  | |- context [conclude_if_decided ?S] =>
      change S with (after_player_move s r c t bp)
  end.
  rewrite (conclude_if_decided_settle (after_player_move s r c t bp) w) by exact Hw.
  cbn [mbind option_bind].
  change (board (after_player_move s r c t bp)) with bp.
  by destruct (decided bp w).
Qed.

(** [update_score] writes the score and nothing else. *)
Lemma update_score_eq s : update_score s = set_score s (score (update_score s)).
Proof.
  unfold update_score.
  destruct (sym_eqb (winner s) (player_symbol s)); [reflexivity |].
  destruct (sym_eqb (winner s) (computer_symbol s)); [reflexivity |].
  destruct (game_over s); [reflexivity |].
  destruct s; reflexivity.
Qed.

(** On a concluded round [update_score] adds one to exactly one counter. *)
Lemma update_score_concluded s :
  game_over s = true →
  let sc := score s in let sc' := score (update_score s) in
  (sc' = mkScore (player sc + 1) (computer sc) (draws sc)
   ∧ sym_eqb (winner s) (player_symbol s) = true)
  ∨ (sc' = mkScore (player sc) (computer sc + 1) (draws sc)
     ∧ sym_eqb (winner s) (player_symbol s) = false
     ∧ sym_eqb (winner s) (computer_symbol s) = true)
  ∨ (sc' = mkScore (player sc) (computer sc) (draws sc + 1)
     ∧ sym_eqb (winner s) (player_symbol s) = false
     ∧ sym_eqb (winner s) (computer_symbol s) = false).
Proof.
  intros Hgo. unfold update_score. cbv zeta.
  destruct (sym_eqb (winner s) (player_symbol s)); [by left |].
  destruct (sym_eqb (winner s) (computer_symbol s)); [by right; left |].
  rewrite Hgo. by right; right.
Qed.

(** The check after a placement touches the winner, the flags of a
    concluded round and the score; nothing else. *)
Lemma settle_frame s w :
  board (settle s w) = board s ∧ move_history (settle s w) = move_history s ∧
  last_move_time (settle s w) = last_move_time s ∧
  current_player (settle s w) = current_player s ∧
  player_symbol (settle s w) = player_symbol s ∧
  computer_symbol (settle s w) = computer_symbol s ∧
  in_menu (settle s w) = in_menu s ∧
  last_computer_move (settle s w) = last_computer_move s ∧
  winner (settle s w) = w ∧
  game_over (settle s w) = decided (board s) w || game_over s.
Proof.
  unfold settle. destruct (decided (board s) w).
  - rewrite update_score_eq. repeat split.
  - repeat split.
Qed.

Lemma settle_undecided s w : decided (board s) w = false → settle s w = set_winner s w.
Proof. intros H. unfold settle. by rewrite H. Qed.

Lemma settle_score s w :
  total (score (settle s w))
  = total (score s) + (if decided (board s) w then 1 else 0)
  ∧ player (score s) ≤ player (score (settle s w))
  ∧ computer (score s) ≤ computer (score (settle s w))
  ∧ draws (score s) ≤ draws (score (settle s w)).
Proof.
  unfold settle. destruct (decided (board s) w).
  - destruct (update_score_concluded
                (set_fade_alpha (set_show_winner_screen
                   (set_game_over (set_winner s w) true) true) 0) eq_refl)
      as [(-> & _) | [(-> & _) | (-> & _)]];
      unfold total; cbn; lia.
  - cbn. lia.
Qed.

(** An accepted click: the player's mark goes on the board; either the
    round is decided at once, or the computer replies on an empty cell and
    the turn comes back to the player. *)
Lemma handle_click_accepted s x y t rnd r c :
  board_ok (board s) → game_over s = false → current_player s = true →
  get_cell x y = Some (r, c) → on_board r c →
  (t - last_move_time s <? move_delay)%float = false →
  board_get (board s) r c = Some None →
  ∃ bp w,
    board_set (board s) r c (player_symbol s) = Some bp ∧
    check_winner bp = Some w ∧
    ((decided bp w = true ∧
      handle_click s x y t rnd = Some (settle (after_player_move s r c t bp) w))
     ∨ (decided bp w = false ∧
        ∃ r' c' b' w',
          on_board r' c' ∧ board_get bp r' c' = Some None ∧
          board_set bp r' c' (computer_symbol s) = Some b' ∧
          check_winner b' = Some w' ∧
          handle_click s x y t rnd
          = Some (set_current_player
                    (settle
                       (after_computer_move
                          (set_current_player
                             (set_winner (after_player_move s r c t bp) w) false)
                          r' c' b')
                       w')
                    true))).
Proof.
  intros Hb Hgo Hcp Hcell H Hcool Hg.
  destruct (board_set_ok (board s) r c (player_symbol s) Hb H) as (bp & Hs & Hbp).
  destruct (check_winner_total bp Hbp) as [w Hw].
  exists bp, w. split; [done |]. split; [done |].
  rewrite (handle_click_unfold s x y t rnd r c bp w) by done.
  destruct (decided bp w) eqn:Hdec; [by left |]. right. split; [done |].
  rewrite (settle_undecided (after_player_move s r c t bp) w) by exact Hdec.
  set (S2 := set_current_player (set_winner (after_player_move s r c t bp) w) false).
  destruct (computer_move_cases S2 rnd Hbp) as
    [(r' & c' & b' & H' & Hg' & Hs' & Hm) | (Hfull & Hm)].
  - change (board S2) with bp in Hg', Hs'.
    change (computer_symbol S2) with (computer_symbol s) in Hs'.
    pose proof (board_set_keeps_ok bp r' c' _ b' Hbp H' Hs') as Hb'.
    destruct (check_winner_total b' Hb') as [w' Hw'].
    exists r', c', b', w'. do 4 (split; [done |]).
    rewrite Hm. cbn [mbind option_bind].
    cbn [last_computer_move set_last_computer_move].
    match goal with
    | |- context [conclude_if_decided ?S] =>
        change S with (after_computer_move S2 r' c' b')
    end.
    rewrite (conclude_if_decided_settle (after_computer_move S2 r' c' b') w')
      by exact Hw'.
    reflexivity.
  - apply orb_false_elim in Hdec as [_ Hnf].
    change (board S2) with bp in Hfull. congruence.
Qed.

(** A click inside the cooldown is dropped, whatever else holds. *)
Lemma handle_click_in_cooldown s x y t rnd r c :
  get_cell x y = Some (r, c) → in_cooldown s t →
  handle_click s x y t rnd = Some s.
Proof.
  unfold in_cooldown. intros Hcell Hcool. unfold handle_click.
  destruct (game_over s || negb (current_player s)); [done |].
  rewrite Hcell. cbn [mbind option_bind].
  destruct ((r <? 0) || (2 <? r) || (c <? 0) || (2 <? c)); [done |].
  by rewrite Hcool.
Qed.

(** The history and the clock after an accepted click. *)
Lemma handle_click_accepted_history s x y t rnd r c :
  board_ok (board s) → game_over s = false → current_player s = true →
  get_cell x y = Some (r, c) → on_board r c →
  (t - last_move_time s <? move_delay)%float = false →
  board_get (board s) r c = Some None →
  ∃ s1 replies,
    handle_click s x y t rnd = Some s1 ∧ last_move_time s1 = t ∧
    move_history s1 = move_history s ++ (r, c, player_symbol s) :: replies ∧
    (length replies ≤ 1)%nat.
Proof.
  intros Hb Hgo Hcp Hcell H Hcool Hg.
  destruct (handle_click_accepted s x y t rnd r c Hb Hgo Hcp Hcell H Hcool Hg)
    as (bp & w & Hs & Hw &
        [(Hdec & ->) | (Hdec & r' & c' & b' & w' & H' & Hg' & Hs' & Hw' & ->)]).
  - exists (settle (after_player_move s r c t bp) w), [].
    destruct (settle_frame (after_player_move s r c t bp) w)
      as (_ & Hh & Ht & _).
    split; [done |]. rewrite Hh, Ht. repeat split. cbn. lia.
  - eexists _, [(r', c', computer_symbol s)]. split; [reflexivity |].
    match goal with
    | |- context [settle ?A w'] =>
        destruct (settle_frame A w') as (_ & Hh & Ht & _)
    end.
    change (last_move_time (set_current_player ?X true)) with (last_move_time X).
    change (move_history (set_current_player ?X true)) with (move_history X).
    rewrite Hh, Ht. split; [reflexivity |]. split; [| cbn; lia].
    cbn. by rewrite <- app_assoc.
Qed.

(** C8. A click during the computer's turn, a click that maps to no cell,
    a click on an occupied cell and a click inside the cooldown leave the
    whole state as it is; an accepted click sets the clock of the cooldown,
    so that a second click within the cooldown of the first is dropped:
    of two such clicks exactly one places a mark. *)
Theorem rejected_clicks_change_nothing (s : TicTacToe) (x y t : float) (rnd : nat) :
  (current_player s = false → handle_click s x y t rnd = Some s)
  ∧ (get_cell x y = Some (-1, -1) → handle_click s x y t rnd = Some s)
  ∧ (∀ r c m, get_cell x y = Some (r, c) →
              board_get (board s) r c = Some (Some m) →
              handle_click s x y t rnd = Some s)
  ∧ (∀ r c, get_cell x y = Some (r, c) → in_cooldown s t →
            handle_click s x y t rnd = Some s)
  ∧ (∀ r c, board_ok (board s) → game_over s = false → current_player s = true →
            get_cell x y = Some (r, c) → on_board r c → ¬ in_cooldown s t →
            board_get (board s) r c = Some None →
            ∃ s1 replies,
              handle_click s x y t rnd = Some s1 ∧ last_move_time s1 = t ∧
              move_history s1
              = move_history s ++ (r, c, player_symbol s) :: replies ∧
              (length replies ≤ 1)%nat ∧
              ∀ x2 y2 t2 rnd2 r2 c2,
                get_cell x2 y2 = Some (r2, c2) →
                (t2 - t <? move_delay)%float = true →
                handle_click s1 x2 y2 t2 rnd2 = Some s1).
Proof.
  split; [| split; [| split; [| split]]].
  - intros Hcp. unfold handle_click. rewrite Hcp. cbn [negb].
    by rewrite orb_true_r.
  - intros Hcell. unfold handle_click.
    destruct (game_over s || negb (current_player s)); [done |].
    by rewrite Hcell.
  - intros r c m Hcell Hg. unfold handle_click.
    destruct (game_over s || negb (current_player s)); [done |].
    rewrite Hcell. cbn [mbind option_bind].
    destruct ((r <? 0) || (2 <? r) || (c <? 0) || (2 <? c)); [done |].
    destruct (t - last_move_time s <? move_delay)%float; [done |].
    by rewrite Hg.
  - intros r c. apply handle_click_in_cooldown.
  - intros r c Hb Hgo Hcp Hcell H Hcool Hg.
    assert (Hcool' : (t - last_move_time s <? move_delay)%float = false).
    { unfold in_cooldown in Hcool.
      by destruct (t - last_move_time s <? move_delay)%float. }
    destruct (handle_click_accepted_history s x y t rnd r c
                Hb Hgo Hcp Hcell H Hcool' Hg)
      as (s1 & replies & Hclick & Htime & Hhist & Hlen).
    exists s1, replies. do 4 (split; [done |]).
    intros x2 y2 t2 rnd2 r2 c2 Hcell2 Hcool2.
    apply (handle_click_in_cooldown s1 x2 y2 t2 rnd2 r2 c2 Hcell2).
    unfold in_cooldown. by rewrite Htime.
Qed.

Lemma rejected_clicks_change_nothing_witness :
  current_player started_O = false ∧
  handle_click started_O 0 0 1 0 = Some started_O ∧
  get_cell 1 0 = Some (-1, -1) ∧
  handle_click started_X 1 0 1 0 = Some started_X ∧
  get_cell 0 0 = Some (1, 1) ∧ board_get (board exchanged) 1 1 = Some (Some O) ∧
  handle_click exchanged 0 0 2 0 = Some exchanged ∧
  get_cell 0.7 0.7 = Some (2, 2) ∧ in_cooldown exchanged 1.2 ∧
  handle_click exchanged 0.7 0.7 1.2 0 = Some exchanged ∧
  board_ok (board started_X) ∧ game_over started_X = false ∧
  current_player started_X = true ∧ get_cell (-0.7) (-0.7) = Some (0, 0) ∧
  on_board 0 0 ∧ ¬ in_cooldown started_X 1 ∧
  board_get (board started_X) 0 0 = Some None ∧
  ∃ s1 replies,
    handle_click started_X (-0.7) (-0.7) 1 0 = Some s1 ∧ last_move_time s1 = 1%float ∧
    move_history s1
    = move_history started_X ++ (0, 0, player_symbol started_X) :: replies ∧
    (length replies ≤ 1)%nat ∧
    ∀ x2 y2 t2 rnd2 r2 c2,
      get_cell x2 y2 = Some (r2, c2) →
      (t2 - 1 <? move_delay)%float = true →
      handle_click s1 x2 y2 t2 rnd2 = Some s1.
Proof.
  assert (Hb : board_ok (board started_X)) by (vm_compute; repeat constructor).
  assert (H00 : on_board 0 0) by (unfold on_board; lia).
  assert (Hnc : ¬ in_cooldown started_X 1) by (vm_compute; discriminate).
  split; [reflexivity |].
  split; [exact (proj1 (rejected_clicks_change_nothing started_O 0 0 1 0%nat) eq_refl) |].
  split; [reflexivity |].
  split; [exact (proj1 (proj2 (rejected_clicks_change_nothing started_X 1 0 1 0%nat))
                   eq_refl) |].
  split; [reflexivity |]. split; [reflexivity |].
  split; [exact (proj1 (proj2 (proj2 (rejected_clicks_change_nothing exchanged 0 0 2 0%nat)))
                   1 1 O eq_refl eq_refl) |].
  split; [reflexivity |]. split; [reflexivity |].
  split; [exact (proj1 (proj2 (proj2 (proj2
                   (rejected_clicks_change_nothing exchanged 0.7 0.7 1.2 0%nat))))
                   2 2 eq_refl eq_refl) |].
  split; [exact Hb |]. split; [reflexivity |]. split; [reflexivity |].
  split; [reflexivity |]. split; [exact H00 |]. split; [exact Hnc |].
  split; [reflexivity |].
  exact (proj2 (proj2 (proj2 (proj2
           (rejected_clicks_change_nothing started_X (-0.7) (-0.7) 1 0%nat))))
           0 0 Hb eq_refl eq_refl eq_refl H00 Hnc eq_refl).
Defined.

(** ** Every path of a click *)

Lemma guard_on_board r c :
  (r <? 0) || (2 <? r) || (c <? 0) || (2 <? c) = false → on_board r c.
Proof.
  unfold on_board.
  destruct (Z.ltb_spec r 0), (Z.ltb_spec 2 r), (Z.ltb_spec c 0), (Z.ltb_spec 2 c);
    cbn; (discriminate || lia).
Qed.

(** A click is either dropped, the state untouched, or accepted. *)
Lemma handle_click_cases s x y t rnd r c :
  board_ok (board s) → get_cell x y = Some (r, c) →
  handle_click s x y t rnd = Some s
  ∨ (game_over s = false ∧ current_player s = true ∧ on_board r c ∧
     (t - last_move_time s <? move_delay)%float = false ∧
     board_get (board s) r c = Some None).
Proof.
  intros Hb Hcell. unfold handle_click.
  destruct (game_over s) eqn:Hgo; [by left |].
  destruct (current_player s) eqn:Hcp; [| by left]. cbn [negb orb].
  rewrite Hcell. cbn [mbind option_bind].
  destruct ((r <? 0) || (2 <? r) || (c <? 0) || (2 <? c)) eqn:Hguard; [by left |].
  apply guard_on_board in Hguard.
  destruct (t - last_move_time s <? move_delay)%float eqn:Hcool; [by left |].
  destruct (board_get_ok (board s) r c Hb Hguard) as [[m|] Hg].
  - left. by rewrite Hg.
  - by right.
Qed.

(** On a 3x3 board, a click at a pointer position that [get_cell] can map
    raises nothing in [handle_click] and leaves a well-formed state. *)
Lemma handle_click_keeps_well_formed (s : TicTacToe) (x y t : float) (rnd : nat) :
  well_formed s → get_cell x y ≠ None →
  ∃ s1, handle_click s x y t rnd = Some s1 ∧ well_formed s1.
Proof.
  intros [Hb Hh] Hnum.
  destruct (get_cell x y) as [[r c]|] eqn:Hcell; [| done].
  destruct (handle_click_cases s x y t rnd r c Hb Hcell)
    as [Hsame | (Hgo & Hcp & H & Hcool & Hg)]; [by exists s |].
  destruct (handle_click_accepted s x y t rnd r c Hb Hgo Hcp Hcell H Hcool Hg)
    as (bp & w & Hs & Hw &
        [(Hdec & ->) | (Hdec & r' & c' & b' & w' & H' & Hg' & Hs' & Hw' & ->)]).
  - exists (settle (after_player_move s r c t bp) w). split; [done |].
    destruct (settle_frame (after_player_move s r c t bp) w) as (Hbd & Hhi & _).
    unfold well_formed. rewrite Hbd, Hhi. split.
    + by apply (board_set_keeps_ok (board s) r c (player_symbol s) bp).
    + apply Forall_app. split; [done |]. constructor; [exact H | constructor].
  - eexists. split; [reflexivity |].
    match goal with
    | |- context [settle ?A w'] =>
        destruct (settle_frame A w') as (Hbd & Hhi & _)
    end.
    unfold well_formed.
    change (board (set_current_player ?X true)) with (board X).
    change (move_history (set_current_player ?X true)) with (move_history X).
    rewrite Hbd, Hhi. split.
    + apply (board_set_keeps_ok bp r' c' (computer_symbol s) b'); try done.
      by apply (board_set_keeps_ok (board s) r c (player_symbol s) bp).
    + cbn. apply Forall_app. split; [| constructor; [exact H' | constructor]].
      apply Forall_app. split; [done |]. constructor; [exact H | constructor].
Qed.

(** X1. A click changes the score only by concluding the round: while a
    round is on, the three counters together grow by one when the click
    ends the round and not at all otherwise, and no counter ever drops. *)
Theorem click_scores_once_per_round (s s1 : TicTacToe) (x y t : float) (rnd : nat) :
  board_ok (board s) → game_over s = false →
  handle_click s x y t rnd = Some s1 →
  total (score s1) = total (score s) + (if game_over s1 then 1 else 0)
  ∧ player (score s) ≤ player (score s1)
  ∧ computer (score s) ≤ computer (score s1)
  ∧ draws (score s) ≤ draws (score s1).
Proof.
  intros Hb Hgo Hclick.
  assert (Hrejected : handle_click s x y t rnd = Some s →
    total (score s1) = total (score s) + (if game_over s1 then 1 else 0)
    ∧ player (score s) ≤ player (score s1)
    ∧ computer (score s) ≤ computer (score s1)
    ∧ draws (score s) ≤ draws (score s1)).
  { intros Hsame. rewrite Hsame in Hclick. injection Hclick as <-.
    rewrite Hgo. lia. }
  destruct (get_cell x y) as [[r c]|] eqn:Hcell.
  2:{ apply Hrejected. unfold handle_click in *. rewrite Hgo in *.
      destruct (current_player s); cbn [negb orb] in *; [| done].
      rewrite Hcell in Hclick. discriminate Hclick. }
  destruct (handle_click_cases s x y t rnd r c Hb Hcell)
    as [Hsame | (_ & Hcp & H & Hcool & Hg)]; [by apply Hrejected |].
  clear Hrejected.
  destruct (handle_click_accepted s x y t rnd r c Hb Hgo Hcp Hcell H Hcool Hg)
    as (bp & w & Hs & Hw &
        [(Hdec & Heq) | (Hdec & r' & c' & b' & w' & H' & Hg' & Hs' & Hw' & Heq)]);
    rewrite Heq in Hclick; injection Hclick as <-.
  - destruct (settle_frame (after_player_move s r c t bp) w)
      as (_ & _ & _ & _ & _ & _ & _ & _ & _ & Hover).
    pose proof (settle_score (after_player_move s r c t bp) w) as Hscore.
    change (board (after_player_move s r c t bp)) with bp in Hover, Hscore.
    change (score (after_player_move s r c t bp)) with (score s) in Hscore.
    rewrite Hover, Hdec. by rewrite Hdec in Hscore.
  - match goal with
    | |- context [settle ?A w'] =>
        destruct (settle_frame A w') as (_ & _ & _ & _ & _ & _ & _ & _ & _ & Hover);
        pose proof (settle_score A w') as Hscore;
        change (board A) with b' in Hover, Hscore;
        change (score A) with (score s) in Hscore;
        change (game_over A) with (game_over s) in Hover
    end.
    change (game_over (set_current_player ?X true)) with (game_over X).
    change (score (set_current_player ?X true)) with (score X).
    rewrite Hover, Hgo, orb_false_r. exact Hscore.
Qed.

Lemma click_scores_once_per_round_witness :
  board_ok (board mid_round) ∧ game_over mid_round = false ∧
  handle_click mid_round 0 0.7 4 0 = Some won ∧
  total (score won) = total (score mid_round) + (if game_over won then 1 else 0)
  ∧ player (score mid_round) ≤ player (score won)
  ∧ computer (score mid_round) ≤ computer (score won)
  ∧ draws (score mid_round) ≤ draws (score won).
Proof.
  assert (Hb : board_ok (board mid_round)) by (vm_compute; repeat constructor).
  assert (Hclick : handle_click mid_round 0 0.7 4 0 = Some won)
    by (vm_compute; reflexivity).
  split; [exact Hb |]. split; [reflexivity |]. split; [exact Hclick |].
  apply (click_scores_once_per_round mid_round won 0 0.7 4 0%nat Hb eq_refl Hclick).
Defined.

(** The counter a concluded round adds to, the two symbols being chosen. *)
Lemma settle_decided_outcome s w mp mc :
  decided (board s) w = true →
  player_symbol s = Some mp → computer_symbol s = Some mc → mp ≠ mc →
  let sc := score s in
  (w = Some mp ∧
   score (settle s w) = mkScore (player sc + 1) (computer sc) (draws sc))
  ∨ (w = Some mc ∧
     score (settle s w) = mkScore (player sc) (computer sc + 1) (draws sc))
  ∨ (w = None ∧ is_board_full (board s) = true ∧
     score (settle s w) = mkScore (player sc) (computer sc) (draws sc + 1)).
Proof.
  intros Hdec Hps Hcs Hne. unfold settle. rewrite Hdec. cbv zeta.
  destruct (update_score_concluded
              (set_fade_alpha (set_show_winner_screen
                 (set_game_over (set_winner s w) true) true) 0) eq_refl)
    as [(Hsc & Hp) | [(Hsc & Hp & Hc) | (Hsc & Hp & Hc)]];
    cbn [winner player_symbol computer_symbol set_fade_alpha
         set_show_winner_screen set_game_over set_winner score] in *;
    rewrite Hps in Hp; try rewrite Hcs in Hc.
  - left. split; [| exact Hsc]. by destruct w as [[]|], mp.
  - right; left. split; [| exact Hsc]. by destruct w as [[]|], mc.
  - right; right. assert (w = None) as ->.
    { destruct w as [[]|], mp, mc; try done; by destruct Hne. }
    split; [done |]. split; [exact Hdec | exact Hsc].
Qed.

(** X2. When a round concludes on a click, the counter of the outcome is
    the one that grows by one, the others keeping their values: the player's
    wins when the winner read off the board is the player's mark, the
    computer's wins when it is the computer's mark, and the draws when
    there is no winner, in which case the board is full. *)
Theorem concluded_round_is_counted (s s1 : TicTacToe) (x y t : float) (rnd : nat)
    (mp mc : mark) :
  board_ok (board s) → game_over s = false →
  player_symbol s = Some mp → computer_symbol s = Some mc → mp ≠ mc →
  handle_click s x y t rnd = Some s1 → game_over s1 = true →
  let sc := score s in
  (winner s1 = Some mp ∧
   score s1 = mkScore (player sc + 1) (computer sc) (draws sc))
  ∨ (winner s1 = Some mc ∧
     score s1 = mkScore (player sc) (computer sc + 1) (draws sc))
  ∨ (winner s1 = None ∧ is_board_full (board s1) = true ∧
     score s1 = mkScore (player sc) (computer sc) (draws sc + 1)).
Proof.
  intros Hb Hgo Hps Hcs Hne Hclick Hover.
  assert (Hnot : handle_click s x y t rnd ≠ Some s).
  { intros Hsame. rewrite Hsame in Hclick. injection Hclick as <-. congruence. }
  destruct (get_cell x y) as [[r c]|] eqn:Hcell.
  2:{ exfalso. unfold handle_click in *. rewrite Hgo in *.
      destruct (current_player s); cbn [negb orb] in *; [| done].
      rewrite Hcell in Hclick. discriminate Hclick. }
  destruct (handle_click_cases s x y t rnd r c Hb Hcell)
    as [Hsame | (_ & Hcp & H & Hcool & Hg)]; [done |].
  destruct (handle_click_accepted s x y t rnd r c Hb Hgo Hcp Hcell H Hcool Hg)
    as (bp & w & Hs & Hw &
        [(Hdec & Heq) | (Hdec & r' & c' & b' & w' & H' & Hg' & Hs' & Hw' & Heq)]);
    rewrite Heq in Hclick; injection Hclick as <-.
  - destruct (settle_frame (after_player_move s r c t bp) w)
      as (Hbd & _ & _ & _ & _ & _ & _ & _ & Hwin & _).
    rewrite Hwin, Hbd.
    exact (settle_decided_outcome (after_player_move s r c t bp) w mp mc
             Hdec Hps Hcs Hne).
  - match type of Hover with
    | context [settle ?A w'] =>
        destruct (settle_frame A w')
          as (Hbd & _ & _ & _ & _ & _ & _ & _ & Hwin & Hov);
        change (game_over (set_current_player (settle A w') true))
          with (game_over (settle A w')) in Hover;
        rewrite Hov in Hover;
        change (game_over A) with (game_over s) in Hover;
        rewrite Hgo, orb_false_r in Hover;
        pose proof (settle_decided_outcome A w' mp mc Hover Hps Hcs Hne) as Hout;
        change (score A) with (score s) in Hout
    end.
    change (winner (set_current_player ?X true)) with (winner X).
    change (board (set_current_player ?X true)) with (board X).
    change (score (set_current_player ?X true)) with (score X).
    rewrite Hwin, Hbd. exact Hout.
Qed.

Lemma concluded_round_is_counted_witness :
  board_ok (board mid_round) ∧ game_over mid_round = false ∧
  player_symbol mid_round = Some X ∧ computer_symbol mid_round = Some O ∧ X ≠ O ∧
  handle_click mid_round 0 0.7 4 0 = Some won ∧ game_over won = true ∧
  ((winner won = Some X ∧
    score won = mkScore (player (score mid_round) + 1) (computer (score mid_round))
                  (draws (score mid_round)))
   ∨ (winner won = Some O ∧
      score won = mkScore (player (score mid_round)) (computer (score mid_round) + 1)
                    (draws (score mid_round)))
   ∨ (winner won = None ∧ is_board_full (board won) = true ∧
      score won = mkScore (player (score mid_round)) (computer (score mid_round))
                    (draws (score mid_round) + 1))).
Proof.
  assert (Hb : board_ok (board mid_round)) by (vm_compute; repeat constructor).
  assert (Hclick : handle_click mid_round 0 0.7 4 0 = Some won)
    by (vm_compute; reflexivity).
  assert (Hne : X ≠ O) by discriminate.
  split; [exact Hb |]. split; [reflexivity |]. split; [reflexivity |].
  split; [reflexivity |]. split; [exact Hne |]. split; [exact Hclick |].
  split; [reflexivity |].
  apply (concluded_round_is_counted mid_round won 0 0.7 4 0%nat X O
           Hb eq_refl eq_refl eq_refl Hne Hclick eq_refl).
Defined.

Lemma settle_decided_flags s w :
  decided (board s) w = true →
  game_over (settle s w) = true ∧ show_winner_screen (settle s w) = true.
Proof.
  intros Hdec. unfold settle. rewrite Hdec, update_score_eq. by split.
Qed.

(** X3. An accepted click puts the player's mark on the clicked cell.  If
    that decides the round (a line or a full board) the round ends at once,
    with the winner screen up and no move of the computer; otherwise the
    computer replies with exactly one move, on another cell that was empty,
    and in both cases the turn is the player's again and the cooldown runs
    from this click. *)
Theorem accepted_click_places_marks (s : TicTacToe) (x y t : float) (rnd : nat)
    (r c : Z) (mp : mark) :
  board_ok (board s) → game_over s = false → current_player s = true →
  player_symbol s = Some mp →
  get_cell x y = Some (r, c) → on_board r c →
  (t - last_move_time s <? move_delay)%float = false →
  board_get (board s) r c = Some None →
  ∃ bp w s1,
    board_set (board s) r c (Some mp) = Some bp ∧ check_winner bp = Some w ∧
    handle_click s x y t rnd = Some s1 ∧
    current_player s1 = true ∧ last_move_time s1 = t ∧
    if decided bp w then
      board s1 = bp ∧ move_history s1 = move_history s ++ [(r, c, Some mp)] ∧
      game_over s1 = true ∧ show_winner_screen s1 = true
    else
      ∃ r' c' b',
        on_board r' c' ∧ (r', c') ≠ (r, c) ∧
        board_get (board s) r' c' = Some None ∧
        board_set bp r' c' (computer_symbol s) = Some b' ∧
        board s1 = b' ∧
        move_history s1
        = move_history s ++ [(r, c, Some mp); (r', c', computer_symbol s)].
Proof.
  intros Hb Hgo Hcp Hps Hcell H Hcool Hg.
  destruct (handle_click_accepted s x y t rnd r c Hb Hgo Hcp Hcell H Hcool Hg)
    as (bp & w & Hs & Hw &
        [(Hdec & Heq) | (Hdec & r' & c' & b' & w' & H' & Hg' & Hs' & Hw' & Heq)]);
    rewrite Heq; rewrite Hps in Hs; exists bp, w; rewrite Hdec.
  - exists (settle (after_player_move s r c t bp) w).
    destruct (settle_frame (after_player_move s r c t bp) w)
      as (Hbd & Hhi & Htime & Hturn & _).
    destruct (settle_decided_flags (after_player_move s r c t bp) w Hdec)
      as (Hover & Hshow).
    rewrite Hbd, Hhi, Htime, Hturn, Hover, Hshow.
    repeat split; try done. cbn. by rewrite Hps.
  - eexists. split; [done |]. split; [done |]. split; [reflexivity |].
    match goal with
    | |- context [settle ?A w'] =>
        destruct (settle_frame A w') as (Hbd & Hhi & Htime & _)
    end.
    change (current_player (set_current_player ?X true)) with true.
    change (last_move_time (set_current_player ?X true)) with (last_move_time X).
    change (board (set_current_player ?X true)) with (board X).
    change (move_history (set_current_player ?X true)) with (move_history X).
    rewrite Hbd, Hhi, Htime. split; [done |]. split; [reflexivity |].
    exists r', c', b'. split; [done |].
    assert (Hne : (r', c') ≠ (r, c)).
    { intros [= -> ->].
      rewrite (board_get_set_eq (board s) r c (Some mp) bp Hb H Hs) in Hg'.
      discriminate Hg'. }
    split; [done |]. split.
    { by rewrite <- (board_get_set_ne (board s) r c (Some mp) bp r' c'). }
    split; [done |]. split; [reflexivity |].
    cbn. rewrite Hps. by rewrite <- app_assoc.
Qed.

Lemma accepted_click_places_marks_witness :
  board_ok (board started_X) ∧ game_over started_X = false ∧
  current_player started_X = true ∧ player_symbol started_X = Some X ∧
  get_cell (-0.7) (-0.7) = Some (0, 0) ∧ on_board 0 0 ∧
  (1 - last_move_time started_X <? move_delay)%float = false ∧
  board_get (board started_X) 0 0 = Some None ∧
  ∃ bp w s1,
    board_set (board started_X) 0 0 (Some X) = Some bp ∧ check_winner bp = Some w ∧
    handle_click started_X (-0.7) (-0.7) 1 0 = Some s1 ∧
    current_player s1 = true ∧ last_move_time s1 = 1%float ∧
    if decided bp w then
      board s1 = bp ∧ move_history s1 = move_history started_X ++ [(0, 0, Some X)] ∧
      game_over s1 = true ∧ show_winner_screen s1 = true
    else
      ∃ r' c' b',
        on_board r' c' ∧ (r', c') ≠ (0, 0) ∧
        board_get (board started_X) r' c' = Some None ∧
        board_set bp r' c' (computer_symbol started_X) = Some b' ∧
        board s1 = b' ∧
        move_history s1
        = move_history started_X
          ++ [(0, 0, Some X); (r', c', computer_symbol started_X)].
Proof.
  assert (Hb : board_ok (board started_X)) by (vm_compute; repeat constructor).
  assert (H00 : on_board 0 0) by (unfold on_board; lia).
  split; [exact Hb |]. do 4 (split; [reflexivity |]). split; [exact H00 |].
  do 2 (split; [reflexivity |]).
  apply (accepted_click_places_marks started_X (-0.7) (-0.7) 1 0%nat 0 0 X
           Hb eq_refl eq_refl eq_refl eq_refl H00 eq_refl eq_refl).
Defined.

(** ** The priority chain of the computer *)

Lemma no_win_find_None b m :
  board_ok b → (∀ r c, ¬ wins_at b m r c) →
  find (winning_cell b (Some m)) all_cells = None.
Proof.
  intros Hb Hno.
  destruct (find (winning_cell b (Some m)) all_cells) as [[r c]|] eqn:Hf; [| done].
  apply find_all_cells_Some in Hf as (H & Htrue & _).
  apply winning_cell_wins_at in Htrue; [| done | done]. by destruct (Hno r c).
Qed.

Lemma find_None_no_win b m :
  board_ok b → find (winning_cell b (Some m)) all_cells = None →
  ∀ r c, ¬ wins_at b m r c.
Proof.
  intros Hb Hf r c Hw. pose proof Hw as (H & _).
  apply winning_cell_wins_at in Hw; [| done | done].
  rewrite (find_all_cells_None _ Hf r c H) in Hw. discriminate Hw.
Qed.

(** [computer_move] when the first search finds nothing and the second
    finds [(r, c)]. *)
Lemma computer_move_block_eq s rnd r c :
  board_ok (board s) →
  find (winning_cell (board s) (computer_symbol s)) all_cells = None →
  find (winning_cell (board s) (player_symbol s)) all_cells = Some (r, c) →
  computer_move s rnd = play_at (set_last_computer_move s (-1, -1)) r c.
Proof.
  destruct s as [b cp go w im sw fa ps cs pc cc ap lt sc mh lc].
  cbn [board computer_symbol player_symbol]. intros Hb Hwin Hblock.
  unfold computer_move.
  cbn [board computer_symbol player_symbol set_last_computer_move set_board
       current_player game_over winner in_menu show_winner_screen fade_alpha
       player_color computer_color animation_progress last_move_time score
       move_history last_computer_move].
  rewrite find_winning_move_spec by done. cbn [mbind option_bind]. rewrite Hwin.
  rewrite find_winning_move_spec by done. cbn [mbind option_bind]. rewrite Hblock.
  reflexivity.
Qed.

(** [computer_move] when both searches find nothing. *)
Lemma computer_move_quiet_eq s rnd :
  board_ok (board s) →
  find (winning_cell (board s) (computer_symbol s)) all_cells = None →
  find (winning_cell (board s) (player_symbol s)) all_cells = None →
  computer_move s rnd
  = (let s0 := set_last_computer_move s (-1, -1) in
     c ← board_get (board s) 1 1;
     if is_None c then play_at s0 1 1 else
     empty_corners ← empty_among (board s) corners;
     match empty_corners with
     | _ :: _ => '(row, col) ← Py.choice rnd empty_corners; play_at s0 row col
     | [] =>
         empty_edges ← empty_among (board s) edges;
         match empty_edges with
         | _ :: _ => '(row, col) ← Py.choice rnd empty_edges; play_at s0 row col
         | [] => Some (s0, false)
         end
     end).
Proof.
  destruct s as [b cp go w im sw fa ps cs pc cc ap lt sc mh lc].
  cbn [board computer_symbol player_symbol]. intros Hb Hwin Hblock.
  unfold computer_move.
  cbn [board computer_symbol player_symbol set_last_computer_move set_board
       current_player game_over winner in_menu show_winner_screen fade_alpha
       player_color computer_color animation_progress last_move_time score
       move_history last_computer_move].
  rewrite find_winning_move_spec by done. cbn [mbind option_bind]. rewrite Hwin.
  rewrite find_winning_move_spec by done. cbn [mbind option_bind]. rewrite Hblock.
  reflexivity.
Qed.

(** X4. When no cell wins for the computer and some empty cell would win
    for the player, [computer_move] puts the computer's mark on the first
    such cell of the row-major scan. *)
Theorem computer_move_blocks_first_threat (s : TicTacToe) (mc mp : mark)
    (rnd : nat) (r c : Z) :
  board_ok (board s) → computer_symbol s = Some mc → player_symbol s = Some mp →
  (∀ r0 c0, ¬ wins_at (board s) mc r0 c0) → wins_at (board s) mp r c →
  ∃ r0 c0 b',
    wins_at (board s) mp r0 c0 ∧
    (∀ r' c', wins_at (board s) mp r' c' → row_major r0 c0 ≤ row_major r' c') ∧
    board_set (board s) r0 c0 (Some mc) = Some b' ∧
    computer_move s rnd
    = Some (set_last_computer_move (set_board s b') (r0, c0), true).
Proof.
  intros Hb Hcs Hps Hno Hw.
  pose proof (no_win_find_None (board s) mc Hb Hno) as Hwin.
  pose proof Hw as (H & _).
  apply winning_cell_wins_at in Hw; [| done | done].
  destruct (find (winning_cell (board s) (Some mp)) all_cells) as [[r0 c0]|] eqn:Hf.
  2:{ rewrite (find_all_cells_None _ Hf r c H) in Hw. discriminate Hw. }
  pose proof (find_all_cells_Some _ _ _ Hf) as (H0 & Htrue & Hmin).
  destruct (board_set_ok (board s) r0 c0 (Some mc) Hb H0) as (b' & Hs & _).
  exists r0, c0, b'. split; [by apply winning_cell_wins_at |].
  split; [| split; [done |]].
  - intros r' c' Hw'. pose proof Hw' as (H' & _).
    apply winning_cell_wins_at in Hw'; [| done | done].
    destruct (Z.lt_ge_cases (row_major r' c') (row_major r0 c0)) as [Hlt | Hge];
      [| lia].
    rewrite (Hmin r' c' H' Hlt) in Hw'. discriminate Hw'.
  - rewrite (computer_move_block_eq s rnd r0 c0) by (by rewrite ?Hcs, ?Hps).
    unfold play_at.
    change (board (set_last_computer_move s (-1, -1))) with (board s).
    change (computer_symbol (set_last_computer_move s (-1, -1)))
      with (computer_symbol s).
    rewrite Hcs, Hs. reflexivity.
Qed.

Lemma computer_move_blocks_first_threat_witness :
  board_ok (board threat_state) ∧ computer_symbol threat_state = Some O ∧
  player_symbol threat_state = Some X ∧
  (∀ r0 c0, ¬ wins_at (board threat_state) O r0 c0) ∧
  wins_at (board threat_state) X 0 2 ∧
  ∃ r0 c0 b',
    wins_at (board threat_state) X r0 c0 ∧
    (∀ r' c', wins_at (board threat_state) X r' c' →
              row_major r0 c0 ≤ row_major r' c') ∧
    board_set (board threat_state) r0 c0 (Some O) = Some b' ∧
    computer_move threat_state 0
    = Some (set_last_computer_move (set_board threat_state b') (r0, c0), true).
Proof.
  assert (Hb : board_ok (board threat_state)) by (vm_compute; repeat constructor).
  assert (Hno : ∀ r0 c0, ¬ wins_at (board threat_state) O r0 c0)
    by (apply (find_None_no_win _ _ Hb); vm_compute; reflexivity).
  assert (Hw : wins_at (board threat_state) X 0 2).
  { split; [unfold on_board; lia |]. split; [reflexivity |].
    exists (grid (Some X) (Some X) (Some X) None (Some O) None None None None).
    split; reflexivity. }
  split; [exact Hb |]. split; [reflexivity |]. split; [reflexivity |].
  split; [exact Hno |]. split; [exact Hw |].
  apply (computer_move_blocks_first_threat threat_state O X 0%nat 0 2
           Hb eq_refl eq_refl Hno Hw).
Defined.

Lemma play_at_from s r c :
  board_ok (board s) → on_board r c →
  ∃ b', board_set (board s) r c (computer_symbol s) = Some b' ∧
        play_at (set_last_computer_move s (-1, -1)) r c
        = Some (set_last_computer_move (set_board s b') (r, c), true).
Proof.
  intros Hb H.
  destruct (play_at_ok (set_last_computer_move s (-1, -1)) r c Hb H)
    as (b' & Hs & Hp).
  exists b'. split; [exact Hs |]. rewrite Hp. reflexivity.
Qed.

Lemma In_corners_on_board r c : In (r, c) corners → on_board r c.
Proof.
  cbn. unfold on_board. intros Hin.
  repeat (destruct Hin as [Hin | Hin]; [inversion Hin; lia |]). destruct Hin.
Qed.

Lemma In_edges_on_board r c : In (r, c) edges → on_board r c.
Proof.
  cbn. unfold on_board. intros Hin.
  repeat (destruct Hin as [Hin | Hin]; [inversion Hin; lia |]). destruct Hin.
Qed.

(** X5. When no cell wins for either side and the board is not full,
    [computer_move] takes the centre if it is empty; otherwise an empty
    corner if there is one; otherwise an empty edge. *)
Theorem computer_move_centre_corner_edge (s : TicTacToe) (mc mp : mark) (rnd : nat) :
  board_ok (board s) → computer_symbol s = Some mc → player_symbol s = Some mp →
  (∀ r c, ¬ wins_at (board s) mc r c) → (∀ r c, ¬ wins_at (board s) mp r c) →
  is_board_full (board s) = false →
  ∃ r0 c0 b',
    board_get (board s) r0 c0 = Some None ∧
    board_set (board s) r0 c0 (Some mc) = Some b' ∧
    computer_move s rnd
    = Some (set_last_computer_move (set_board s b') (r0, c0), true) ∧
    (board_get (board s) 1 1 = Some None → (r0, c0) = (1, 1)) ∧
    (board_get (board s) 1 1 ≠ Some None →
     (∃ r c, In (r, c) corners ∧ board_get (board s) r c = Some None) →
     In (r0, c0) corners) ∧
    (board_get (board s) 1 1 ≠ Some None →
     (∀ r c, In (r, c) corners → board_get (board s) r c ≠ Some None) →
     In (r0, c0) edges).
Proof.
  intros Hb Hcs Hps Hnowin Hnoblock Hnotfull.
  rewrite computer_move_quiet_eq;
    [| done | rewrite Hcs; by apply no_win_find_None
     | rewrite Hps; by apply no_win_find_None ].
  cbv zeta.
  assert (H11 : on_board 1 1) by (unfold on_board; lia).
  destruct (board_get_ok (board s) 1 1 Hb H11) as [v Hv].
  rewrite Hv. cbn [mbind option_bind].
  destruct v as [m11|]; cbn [is_None].
  2:{ destruct (play_at_from s 1 1 Hb H11) as (b' & Hs & Hp).
      exists 1, 1, b'. rewrite Hp, <- Hcs. by repeat split. }
  destruct (empty_among_spec (board s) corners Hb) as (lc & Hlc & Hcorners).
  { repeat constructor; cbn; lia. }
  rewrite Hlc. cbn [mbind option_bind].
  destruct lc as [|p lc].
  2:{ destruct (choice_In rnd (p :: lc)) as ([r0 c0] & Hch & Hin); [done |].
      rewrite Hch. cbn [mbind option_bind].
      apply Hcorners in Hin as [Hin Hg].
      destruct (play_at_from s r0 c0 Hb (In_corners_on_board _ _ Hin))
        as (b' & Hs & Hp).
      exists r0, c0, b'. rewrite Hp, <- Hcs. repeat split; try done.
      intros _ Hnone. by destruct (Hnone r0 c0 Hin). }
  destruct (empty_among_spec (board s) edges Hb) as (le & Hle & Hedges).
  { repeat constructor; cbn; lia. }
  rewrite Hle. cbn [mbind option_bind].
  destruct le as [|p le].
  2:{ destruct (choice_In rnd (p :: le)) as ([r0 c0] & Hch & Hin); [done |].
      rewrite Hch. cbn [mbind option_bind].
      apply Hedges in Hin as [Hin Hg].
      destruct (play_at_from s r0 c0 Hb (In_edges_on_board _ _ Hin))
        as (b' & Hs & Hp).
      exists r0, c0, b'. rewrite Hp, <- Hcs. repeat split; try done.
      intros _ (r & c & Hinc & Hgc).
      by destruct (proj2 (Hcorners r c) (conj Hinc Hgc)). }
  exfalso.
  assert (Hfull : is_board_full (board s) = true); [| congruence].
  apply is_board_full_true; [done |]. intros r c H Hg.
  split_cell r c H;
    match type of Hg with
    | board_get _ ?r ?c = _ =>
        first [ congruence
              | assert (Hin : In (r, c) corners) by (compute; tauto);
                exact (proj2 (Hcorners r c) (conj Hin Hg))
              | assert (Hin : In (r, c) edges) by (compute; tauto);
                exact (proj2 (Hedges r c) (conj Hin Hg)) ]
    end.
Qed.

Lemma computer_move_centre_corner_edge_witness :
  board_ok (board quiet_state) ∧ computer_symbol quiet_state = Some O ∧
  player_symbol quiet_state = Some X ∧
  (∀ r c, ¬ wins_at (board quiet_state) O r c) ∧
  (∀ r c, ¬ wins_at (board quiet_state) X r c) ∧
  is_board_full (board quiet_state) = false ∧
  ∃ r0 c0 b',
    board_get (board quiet_state) r0 c0 = Some None ∧
    board_set (board quiet_state) r0 c0 (Some O) = Some b' ∧
    computer_move quiet_state 0
    = Some (set_last_computer_move (set_board quiet_state b') (r0, c0), true) ∧
    (board_get (board quiet_state) 1 1 = Some None → (r0, c0) = (1, 1)) ∧
    (board_get (board quiet_state) 1 1 ≠ Some None →
     (∃ r c, In (r, c) corners ∧ board_get (board quiet_state) r c = Some None) →
     In (r0, c0) corners) ∧
    (board_get (board quiet_state) 1 1 ≠ Some None →
     (∀ r c, In (r, c) corners → board_get (board quiet_state) r c ≠ Some None) →
     In (r0, c0) edges).
Proof.
  assert (Hb : board_ok (board quiet_state)) by (vm_compute; repeat constructor).
  assert (HnoO : ∀ r c, ¬ wins_at (board quiet_state) O r c)
    by (apply (find_None_no_win _ _ Hb); vm_compute; reflexivity).
  assert (HnoX : ∀ r c, ¬ wins_at (board quiet_state) X r c)
    by (apply (find_None_no_win _ _ Hb); vm_compute; reflexivity).
  split; [exact Hb |]. split; [reflexivity |]. split; [reflexivity |].
  split; [exact HnoO |]. split; [exact HnoX |]. split; [reflexivity |].
  apply (computer_move_centre_corner_edge quiet_state O X 0%nat
           Hb eq_refl eq_refl HnoO HnoX eq_refl).
Defined.

(** ** Undo on well-formed states *)

Lemma last_two {A} (l : list A) :
  (2 ≤ length l)%nat → ∃ h e1 e2, l = h ++ [e1; e2].
Proof.
  intros Hlen.
  destruct l as [|x l _] using rev_ind; [cbn in Hlen; lia |].
  destruct l as [|y l _] using rev_ind; [cbn in Hlen; lia |].
  exists l, y, x. by rewrite <- app_assoc.
Qed.

(** Undo with two moves to take back: the result, explicitly. *)
Lemma undo_last_move_two s h r1 c1 m1 r2 c2 m2 :
  board_ok (board s) → on_board r1 c1 → on_board r2 c2 →
  move_history s = h ++ [(r1, c1, m1); (r2, c2, m2)] →
  ∃ b1 b2,
    board_set (board s) r2 c2 None = Some b1 ∧ board_set b1 r1 c1 None = Some b2 ∧
    board_ok b2 ∧
    undo_last_move s
    = Some (set_animation_progress
              (set_current_player
                 (set_show_winner_screen
                    (set_winner
                       (set_game_over (set_board (set_move_history s h) b2) false)
                       None)
                    false)
                 true)
              0).
Proof.
  intros Hb H1 H2 Hh.
  assert (Hlen : (2 <=? length (move_history s))%nat = true).
  { apply Nat.leb_le. rewrite Hh, length_app. cbn [length]. lia. }
  destruct (undo_one_snoc s (h ++ [(r1, c1, m1)]) r2 c2 m2 Hb H2)
    as (b1 & Hs1 & Hb1 & Hu1).
  { by rewrite Hh, <- app_assoc. }
  destruct (undo_one_snoc (set_board (set_move_history s (h ++ [(r1, c1, m1)])) b1)
              h r1 c1 m1 Hb1 H1 eq_refl) as (b2 & Hs2 & Hb2 & Hu2).
  cbn [board set_board set_move_history] in Hs2.
  exists b1, b2. do 3 (split; [done |]).
  unfold undo_last_move. rewrite Hlen, Hu1. cbn [mbind option_bind].
  rewrite Hu2. reflexivity.
Qed.

(** X6. On a well-formed state undo raises nothing and leaves a
    well-formed state; it takes two moves off the history when there are
    two, none otherwise, and it never touches the score, the two symbols,
    the cooldown clock or the menu flag: the score of an undone round
    stays counted. *)
Theorem undo_keeps_well_formed_and_score (s : TicTacToe) :
  well_formed s →
  ∃ s', undo_last_move s = Some s' ∧ well_formed s' ∧
        length (move_history s')
        = (if (2 <=? length (move_history s))%nat
           then length (move_history s) - 2 else length (move_history s))%nat ∧
        score s' = score s ∧ player_symbol s' = player_symbol s ∧
        computer_symbol s' = computer_symbol s ∧
        last_move_time s' = last_move_time s ∧ in_menu s' = in_menu s.
Proof.
  intros [Hb Hh].
  destruct (2 <=? length (move_history s))%nat eqn:Hlen.
  - apply Nat.leb_le in Hlen.
    destruct (last_two (move_history s) Hlen) as (h & [[r1 c1] m1] & [[r2 c2] m2] & Heq).
    unfold history_on_board in Hh. rewrite Heq in Hh.
    apply Forall_app in Hh as [Hh0 Hh12].
    inversion_clear Hh12 as [|? ? H1 Hh2]. inversion_clear Hh2 as [|? ? H2 _].
    cbn [fst snd] in H1, H2.
    destruct (undo_last_move_two s h r1 c1 m1 r2 c2 m2 Hb H1 H2 Heq)
      as (b1 & b2 & Hs1 & Hs2 & Hb2 & Hundo).
    eexists. split; [exact Hundo |]. split; [by split |].
    split; [| by repeat split].
    cbn [move_history set_animation_progress set_current_player
         set_show_winner_screen set_winner set_game_over set_board
         set_move_history].
    rewrite Heq, length_app. cbn [length]. lia.
  - exists s. split; [| split; [by split | by repeat split]].
    apply undo_last_move_short. apply Nat.leb_gt in Hlen. lia.
Qed.

Lemma undo_keeps_well_formed_and_score_witness :
  well_formed won ∧
  ∃ s', undo_last_move won = Some s' ∧ well_formed s' ∧
        length (move_history s')
        = (if (2 <=? length (move_history won))%nat
           then length (move_history won) - 2 else length (move_history won))%nat ∧
        score s' = score won ∧ player_symbol s' = player_symbol won ∧
        computer_symbol s' = computer_symbol won ∧
        last_move_time s' = last_move_time won ∧ in_menu s' = in_menu won.
Proof.
  assert (Hwf : well_formed won).
  { split; [vm_compute; repeat constructor |].
    repeat (constructor; [unfold on_board; cbn; lia |]). constructor. }
  split; [exact Hwf |].
  apply (undo_keeps_well_formed_and_score won Hwf).
Defined.

(** X7. Undo takes back an exchange: when a click made the player's move and
    the computer's reply, undo right after it gives back the board and the
    history from before the click, with the turn at the player and the round
    open again, even if the reply had won the round; the score stays as the
    click left it. *)
Theorem undo_after_exchange_restores (s s1 : TicTacToe) (x y t : float) (rnd : nat) :
  board_ok (board s) → game_over s = false →
  handle_click s x y t rnd = Some s1 →
  length (move_history s1) = (length (move_history s) + 2)%nat →
  ∃ s2, undo_last_move s1 = Some s2 ∧
        board s2 = board s ∧ move_history s2 = move_history s ∧
        current_player s2 = true ∧ game_over s2 = false ∧ winner s2 = None ∧
        score s2 = score s1.
Proof.
  intros Hb Hgo Hclick Hlen.
  assert (Hnot : handle_click s x y t rnd ≠ Some s).
  { intros Hsame. rewrite Hsame in Hclick. injection Hclick as <-. lia. }
  destruct (get_cell x y) as [[r c]|] eqn:Hcell.
  2:{ exfalso. unfold handle_click in *. rewrite Hgo in *.
      destruct (current_player s); cbn [negb orb] in *; [| done].
      rewrite Hcell in Hclick. discriminate Hclick. }
  destruct (handle_click_cases s x y t rnd r c Hb Hcell)
    as [Hsame | (_ & Hcp & H & Hcool & Hg)]; [done |].
  destruct (handle_click_accepted s x y t rnd r c Hb Hgo Hcp Hcell H Hcool Hg)
    as (bp & w & Hs & Hw &
        [(Hdec & Heq) | (Hdec & r' & c' & b' & w' & H' & Hg' & Hs' & Hw' & Heq)]);
    rewrite Heq in Hclick; injection Hclick as <-.
  { exfalso.
    destruct (settle_frame (after_player_move s r c t bp) w) as (_ & Hhi & _).
    rewrite Hhi in Hlen. cbn in Hlen. rewrite length_app in Hlen. cbn in Hlen. lia. }
  pose proof (board_set_keeps_ok (board s) r c _ bp Hb H Hs) as Hbp.
  pose proof (board_set_keeps_ok bp r' c' _ b' Hbp H' Hs') as Hb'.
  match goal with
  | |- context [settle ?A w'] =>
      set (s1 := set_current_player (settle A w') true) in *;
      destruct (settle_frame A w') as (Hbd & Hhi & _);
      assert (Hboard : board s1 = b') by exact Hbd;
      assert (Hhist : move_history s1
                      = move_history s
                        ++ [(r, c, player_symbol s); (r', c', computer_symbol s)])
        by (unfold s1;
            change (move_history (set_current_player ?X true)) with (move_history X);
            rewrite Hhi; cbn; by rewrite <- app_assoc)
  end.
  clearbody s1.
  assert (Hb1 : board_ok (board s1)) by (by rewrite Hboard).
  destruct (undo_last_move_two s1 (move_history s) r c (player_symbol s)
              r' c' (computer_symbol s) Hb1 H H' Hhist)
    as (b1 & b2 & Hs1 & Hs2 & _ & Hundo).
  rewrite Hboard in Hs1.
  rewrite (board_set_restore bp r' c' None (computer_symbol s) b' Hbp H' Hg' Hs')
    in Hs1.
  injection Hs1 as <-.
  rewrite (board_set_restore (board s) r c None (player_symbol s) bp Hb H Hg Hs)
    in Hs2.
  injection Hs2 as <-.
  eexists. split; [exact Hundo |]. by repeat split.
Qed.

Lemma undo_after_exchange_restores_witness :
  board_ok (board started_X) ∧ game_over started_X = false ∧
  handle_click started_X (-0.7) (-0.7) 1 0 = Some exchanged ∧
  length (move_history exchanged) = (length (move_history started_X) + 2)%nat ∧
  ∃ s2, undo_last_move exchanged = Some s2 ∧
        board s2 = board started_X ∧ move_history s2 = move_history started_X ∧
        current_player s2 = true ∧ game_over s2 = false ∧ winner s2 = None ∧
        score s2 = score exchanged.
Proof.
  assert (Hb : board_ok (board started_X)) by (vm_compute; repeat constructor).
  assert (Hclick : handle_click started_X (-0.7) (-0.7) 1 0 = Some exchanged)
    by (vm_compute; reflexivity).
  split; [exact Hb |]. split; [reflexivity |]. split; [exact Hclick |].
  split; [reflexivity |].
  apply (undo_after_exchange_restores started_X exchanged (-0.7) (-0.7) 1 0%nat
           Hb eq_refl Hclick eq_refl).
Defined.

(** ** The menu *)

#[local] Arguments is_point_in_rect : simpl never.
#[local] Arguments menu_action : simpl never.
#[local] Arguments button_action : simpl never.

Lemma menu_action_play_x s rnd : menu_action s "play_x" rnd = Some (chose_X s).
Proof. reflexivity. Qed.

Lemma menu_action_play_o s rnd :
  menu_action s "play_o" rnd = ('(s', _) ← computer_move (chose_O s) rnd; Some s').
Proof. reflexivity. Qed.

Lemma menu_action_color s rnd :
  menu_action s "color_red" rnd = Some (set_player_color s red) ∧
  menu_action s "color_blue" rnd = Some (set_player_color s blue) ∧
  menu_action s "color_green" rnd = Some (set_player_color s green) ∧
  menu_action s "color_purple" rnd = Some (set_player_color s purple).
Proof. repeat split. Qed.

(** The four things a menu click can do. *)
Lemma handle_menu_click_cases s x y rnd :
  handle_menu_click s x y rnd = Some s
  ∨ handle_menu_click s x y rnd = Some (chose_X s)
  ∨ handle_menu_click s x y rnd
    = ('(s', _) ← computer_move (chose_O s) rnd; Some s')
  ∨ ∃ col, handle_menu_click s x y rnd = Some (set_player_color s col).
Proof.
  unfold handle_menu_click, menu_buttons. cbn [handle_menu_click_from].
  destruct (menu_action_color s rnd) as (Hr & Hb & Hg & Hp).
  repeat match goal with
         | |- context [if is_point_in_rect x y ?r then _ else _] =>
             destruct (is_point_in_rect x y r)
         end.
  - right; left. apply menu_action_play_x.
  - right; right; left. apply menu_action_play_o.
  - right; right; right. by exists red.
  - right; right; right. by exists blue.
  - right; right; right. by exists green.
  - right; right; right. by exists purple.
  - by left.
Qed.

(** What the "Play as O" branch leaves on a 3x3 board: the state handed to
    [computer_move], with at most one mark of the computer added. *)
Lemma play_o_result s rnd :
  board_ok (board s) →
  ∃ s', ('(s1, _) ← computer_move (chose_O s) rnd; Some s1) = Some s' ∧
        board_ok (board s') ∧ move_history s' = move_history s ∧
        score s' = score s ∧ game_over s' = game_over s ∧
        player_symbol s' = Some O ∧ computer_symbol s' = Some X ∧
        current_player s' = false ∧ in_menu s' = false.
Proof.
  intros Hb.
  destruct (computer_move_cases (chose_O s) rnd Hb)
    as [(r & c & b' & H & Hg & Hs & ->) | (_ & ->)];
    cbn [mbind option_bind]; eexists; (split; [reflexivity |]).
  - split; [| by repeat split].
    by apply (board_set_keeps_ok (board s) r c (Some X) b').
  - split; [exact Hb | by repeat split].
Qed.

(** X8. A click in the menu raises nothing and never clears anything: the
    move history, the score and the game-over flag stay, and the board
    stays 3x3.  When the click starts the game, the player and the computer
    hold different symbols: X for the player with the board untouched and
    the turn at the player, or O for the player with the turn left at the
    computer. *)
Theorem menu_click_keeps_the_round (s : TicTacToe) (x y : float) (rnd : nat) :
  board_ok (board s) → in_menu s = true →
  ∃ s', handle_menu_click s x y rnd = Some s' ∧
        board_ok (board s') ∧ move_history s' = move_history s ∧
        score s' = score s ∧ game_over s' = game_over s ∧
        (in_menu s' = false →
         (player_symbol s' = Some X ∧ computer_symbol s' = Some O ∧
          current_player s' = true ∧ board s' = board s)
         ∨ (player_symbol s' = Some O ∧ computer_symbol s' = Some X ∧
            current_player s' = false)).
Proof.
  intros Hb Hmenu.
  destruct (handle_menu_click_cases s x y rnd) as [-> | [-> | [-> | [col ->]]]].
  - exists s. split; [done |]. split; [done |]. repeat split; try done.
    intros Hout. congruence.
  - exists (chose_X s). split; [done |]. split; [done |]. repeat split; try done.
    intros _. by left.
  - destruct (play_o_result s rnd Hb)
      as (s' & -> & Hb' & Hh & Hsc & Hgo & Hps & Hcs & Hcp & Him).
    exists s'. split; [done |]. split; [done |]. repeat split; try done.
    intros _. by right.
  - exists (set_player_color s col). split; [done |]. split; [done |].
    repeat split; try done. intros Hout. cbn in Hout. congruence.
Qed.

Lemma menu_click_keeps_the_round_witness :
  board_ok (board init) ∧ in_menu init = true ∧
  ∃ s', handle_menu_click init 0.5 0.45 0 = Some s' ∧
        board_ok (board s') ∧ move_history s' = move_history init ∧
        score s' = score init ∧ game_over s' = game_over init ∧
        (in_menu s' = false →
         (player_symbol s' = Some X ∧ computer_symbol s' = Some O ∧
          current_player s' = true ∧ board s' = board init)
         ∨ (player_symbol s' = Some O ∧ computer_symbol s' = Some X ∧
            current_player s' = false)).
Proof.
  assert (Hb : board_ok (board init)) by (vm_compute; repeat constructor).
  split; [exact Hb |]. split; [reflexivity |].
  apply (menu_click_keeps_the_round init 0.5 0.45 0%nat Hb eq_refl).
Defined.

(** ** The game loop keeps states well-formed *)

Lemma fresh_menu_wf ap lt : well_formed (fresh_menu ap lt).
Proof. split; [apply empty_board_ok | constructor]. Qed.

Lemma undo_last_move_wf s :
  well_formed s → ∃ s', undo_last_move s = Some s' ∧ well_formed s'.
Proof.
  intros [Hb Hh].
  destruct (le_lt_dec 2 (length (move_history s))) as [Hlen | Hlen].
  - destruct (last_two (move_history s) Hlen) as (h & [[r1 c1] m1] & [[r2 c2] m2] & Heq).
    unfold history_on_board in Hh. rewrite Heq in Hh.
    apply Forall_app in Hh as [Hh0 Hh12].
    inversion_clear Hh12 as [|? ? H1 Hh2]. inversion_clear Hh2 as [|? ? H2 _].
    cbn [fst snd] in H1, H2.
    destruct (undo_last_move_two s h r1 c1 m1 r2 c2 m2 Hb H1 H2 Heq)
      as (b1 & b2 & Hs1 & Hs2 & Hb2 & Hundo).
    eexists. split; [exact Hundo |]. by split.
  - exists s. split; [by apply undo_last_move_short | by split].
Qed.

Lemma handle_menu_click_wf s x y rnd :
  well_formed s → ∃ s', handle_menu_click s x y rnd = Some s' ∧ well_formed s'.
Proof.
  intros [Hb Hh].
  destruct (handle_menu_click_cases s x y rnd) as [-> | [-> | [-> | [col ->]]]].
  - exists s. split; [done | by split].
  - exists (chose_X s). split; [done | by split].
  - destruct (play_o_result s rnd Hb) as (s' & -> & Hb' & Hh' & _).
    exists s'. split; [done |]. split; [done |]. unfold history_on_board.
    by rewrite Hh'.
  - exists (set_player_color s col). split; [done | by split].
Qed.

Lemma handle_button_click_wf s x y rnd :
  well_formed s →
  ∃ s' hit, handle_button_click s x y rnd = Some (s', hit) ∧ well_formed s' ∧
            (hit = false → s' = s).
Proof.
  intros Hwf. unfold handle_button_click, buttons. cbn [handle_button_click_from].
  repeat match goal with
         | |- context [if is_point_in_rect x y ?r then _ else _] =>
             destruct (is_point_in_rect x y r)
         end.
  - change (button_action s "restart" rnd) with (reset_game s rnd).
    rewrite reset_game_spec. cbn [mbind option_bind].
    eexists _, true. split; [reflexivity |]. split; [apply fresh_menu_wf | done].
  - change (button_action s "menu" rnd) with (Some (set_in_menu s true)).
    cbn [mbind option_bind].
    eexists _, true. split; [reflexivity |]. split; [exact Hwf | done].
  - change (button_action s "undo" rnd) with (undo_last_move s).
    destruct (undo_last_move_wf s Hwf) as (s' & -> & Hwf').
    cbn [mbind option_bind]. by exists s', true.
  - by exists s, false.
Qed.

Lemma handle_winner_screen_click_wf s x y rnd :
  well_formed s →
  ∃ s', handle_winner_screen_click s x y rnd = Some s' ∧ well_formed s'.
Proof.
  intros Hwf. unfold handle_winner_screen_click.
  destruct (negb (show_winner_screen s) || (fade_alpha s <? 0.7)%float);
    [by exists s |].
  cbv zeta.
  repeat match goal with
         | |- context [if is_point_in_rect x y ?r then _ else _] =>
             destruct (is_point_in_rect x y r)
         end;
    rewrite ?reset_game_spec;
    (eexists; split; [reflexivity |]); first [apply fresh_menu_wf | exact Hwf].
Qed.

(** One event on a well-formed state. *)
Lemma handle_event_wf (s : TicTacToe) (running : bool)
    (ev : Event) (x y now : float) (rnd : nat) :
  well_formed s → get_cell x y ≠ None →
  ∃ s' running', handle_event s running ev x y now rnd = Some (s', running') ∧
                 well_formed s'.
Proof.
  intros Hwf Hnum.
  destruct ev as [| | key ctrl | button]; cbn [handle_event].
  - by exists s, false.
  - by exists s, running.
  - destruct key.
    + destruct (negb (in_menu s)); [| by exists s, false].
      exists (set_in_menu s true), running. split; [done | exact Hwf].
    + destruct (game_over s); [| by exists s, running].
      rewrite reset_game_spec. cbn [mbind option_bind].
      eexists _, running. split; [reflexivity | apply fresh_menu_wf].
    + destruct ctrl; [| by exists s, running].
      destruct (undo_last_move_wf s Hwf) as (s' & -> & Hwf').
      by exists s', running.
    + by exists s, running.
  - destruct (button =? 1); [| by exists s, running].
    destruct (in_menu s).
    + destruct (handle_menu_click_wf s x y rnd Hwf) as (s' & -> & Hwf').
      by exists s', running.
    + destruct (handle_button_click_wf s x y rnd Hwf)
        as (s' & hit & -> & Hwf' & Hsame).
      cbn [mbind option_bind]. destruct hit; [by exists s', running |].
      rewrite (Hsame eq_refl) in *. clear Hsame.
      destruct (show_winner_screen s).
      * destruct (handle_winner_screen_click_wf s x y rnd Hwf) as (s2 & -> & Hwf2).
        by exists s2, running.
      * destruct (current_player s && negb (game_over s));
          [| by exists s, running].
        destruct (handle_click_keeps_well_formed s x y now rnd Hwf Hnum)
          as (s2 & -> & Hwf2).
        by exists s2, running.
Qed.

Lemma init_well_formed : well_formed init.
Proof. split; [apply empty_board_ok | constructor]. Qed.

(** X9. The event handling of the game loop raises nothing on a
    well-formed state, provided the pointer position can be mapped by
    [get_cell], and it leaves a well-formed state: the board is 3x3 and
    every recorded move lies on it, so that no list index of the handlers
    is out of range. *)
Theorem handle_event_keeps_well_formed (s : TicTacToe) (running : bool)
    (ev : Event) (x y now : float) (rnd : nat) :
  well_formed s → get_cell x y ≠ None →
  ∃ s' running', handle_event s running ev x y now rnd = Some (s', running') ∧
                 well_formed s'.
Proof. apply handle_event_wf. Qed.

Lemma handle_event_keeps_well_formed_witness :
  well_formed init ∧ get_cell 0.5 0.7 ≠ None ∧
  ∃ s' running', handle_event init true (MOUSEBUTTONDOWN 1) 0.5 0.7 1 0
                 = Some (s', running') ∧ well_formed s'.
Proof.
  assert (Hnum : get_cell 0.5 0.7 ≠ None) by (vm_compute; discriminate).
  split; [exact init_well_formed |]. split; [exact Hnum |].
  apply (handle_event_keeps_well_formed init true (MOUSEBUTTONDOWN 1) 0.5 0.7 1 0%nat
           init_well_formed Hnum).
Defined.

(** ** Frames *)

#[local] Arguments handle_event : simpl never.
#[local] Arguments update_animations : simpl never.

Lemma update_animations_wf s dt : well_formed s → well_formed (update_animations s dt).
Proof.
  intros Hwf. unfold update_animations. cbv zeta.
  destruct (negb (game_over s));
    match goal with
    | |- context [if show_winner_screen ?S then _ else _] =>
        destruct (show_winner_screen S)
    end; exact Hwf.
Qed.

Lemma handle_event_at_wf s running ev pointer now rnd :
  well_formed s →
  match pointer with
  | Some p => mappable p
  | None => ev ≠ MOUSEBUTTONDOWN 1
  end →
  ∃ s' running', handle_event_at s running ev pointer now rnd = Some (s', running') ∧
                 well_formed s'.
Proof.
  intros Hwf Hp.
  assert (H0 : get_cell 0 0 ≠ None) by (vm_compute; discriminate).
  destruct pointer as [[x y]|].
  - destruct ev; cbn [handle_event_at]; by apply handle_event_wf.
  - destruct ev as [| | key ctrl | button]; cbn [handle_event_at];
      try by apply handle_event_wf.
    destruct (Z.eqb_spec button 1) as [-> | Hne]; [done |].
    by apply handle_event_wf.
Qed.

Lemma handle_events_wf evs : ∀ s running pointer,
  well_formed s → pointer_ok pointer evs →
  ∃ s' running', handle_events s running pointer evs = Some (s', running') ∧
                 well_formed s'.
Proof.
  induction evs as [|[[ev now] rnd] evs IH]; intros s running pointer Hwf Hp.
  - by exists s, running.
  - cbn [handle_events].
    destruct (handle_event_at_wf s running ev pointer now rnd Hwf)
      as (s1 & running1 & -> & Hwf1).
    { destruct pointer as [p|]; [exact Hp |].
      intros ->. apply (Hp now rnd). by left. }
    apply IH; [exact Hwf1 |].
    destruct pointer as [p|]; [exact Hp |].
    intros now' rnd' Hin. apply (Hp now' rnd'). by right.
Qed.

Lemma run_frame_wf s running pointer f :
  well_formed s → pointer_ok pointer (frame_events f) → mappable (frame_pointer f) →
  ∃ s' running', run_frame s running pointer f
                 = Some (s', running', Some (frame_pointer f)) ∧
                 well_formed s'.
Proof.
  intros Hwf Hp Hm. unfold run_frame.
  destruct (handle_events_wf (frame_events f) s running pointer Hwf Hp)
    as (s1 & running1 & -> & Hwf1).
  cbn [mbind option_bind]. unfold mappable in Hm.
  destruct (frame_pointer f) as [x y]. cbn [fst snd] in Hm.
  exists (update_animations s1 (delta_time f)), running1.
  split; [| by apply update_animations_wf].
  destruct (negb (in_menu s1) && negb (game_over s1)); [| done].
  by destruct (get_cell x y).
Qed.

Lemma handle_events_click s running evs :
  (∃ now rnd, In (MOUSEBUTTONDOWN 1, now, rnd) evs) →
  handle_events s running None evs = None.
Proof.
  intros (now & rnd & Hin). revert s running.
  induction evs as [|[[ev now'] rnd'] evs IH]; intros s running; [destruct Hin |].
  cbn [handle_events]. destruct Hin as [[= -> -> ->] | Hin]; [done |].
  destruct (handle_event_at s running ev None now' rnd') as [[s1 running1]|]; [| done].
  by apply IH.
Qed.

(** X10. The frames of the game loop keep the state well-formed and their
    state handling raises nothing, from any well-formed state, as long as
    every pointer position the frames compute can be mapped by [get_cell]
    and, when the loop has no pointer position yet, the first frame brings
    no left click. *)
Theorem run_frames_keep_well_formed (fs : list Frame) (s : TicTacToe)
    (running : bool) (pointer : option (float * float)) :
  well_formed s → pointer_ok pointer (first_events fs) →
  Forall (λ f, mappable (frame_pointer f)) fs →
  ∃ s' running' pointer',
    run_frames s running pointer fs = Some (s', running', pointer') ∧
    well_formed s'.
Proof.
  revert s running pointer.
  induction fs as [|f fs IH]; intros s running pointer Hwf Hp Hall.
  - by exists s, running, pointer.
  - cbn [run_frames]. destruct running; [| by exists s, false, pointer].
    inversion_clear Hall as [|? ? Hm Hall'].
    destruct (run_frame_wf s true pointer f Hwf Hp Hm)
      as (s1 & running1 & -> & Hwf1).
    apply IH; [exact Hwf1 | exact Hm | exact Hall'].
Qed.

Lemma run_frames_keep_well_formed_witness :
  well_formed init ∧ pointer_ok None (first_events two_frames) ∧
  Forall (λ f, mappable (frame_pointer f)) two_frames ∧
  ∃ s' running' pointer',
    run_frames init true None two_frames = Some (s', running', pointer') ∧
    well_formed s'.
Proof.
  assert (Hp : pointer_ok None (first_events two_frames))
    by (intros now rnd Hin; destruct Hin).
  assert (Hall : Forall (λ f, mappable (frame_pointer f)) two_frames)
    by (repeat constructor; vm_compute; discriminate).
  split; [exact init_well_formed |]. split; [exact Hp |]. split; [exact Hall |].
  apply (run_frames_keep_well_formed two_frames init true None
           init_well_formed Hp Hall).
Defined.

(** X11. In the first frame of the loop the pointer position is not
    assigned yet: when that frame brings a left click, the event handling
    raises, in whatever state the game is and whatever else the frame
    brings. *)
Theorem first_frame_click_raises (s : TicTacToe) (f : Frame) (fs : list Frame) :
  has_left_click f → run_frames s true None (f :: fs) = None.
Proof.
  intros Hclick. cbn [run_frames]. unfold run_frame.
  by rewrite (handle_events_click s true (frame_events f) Hclick).
Qed.

Lemma first_frame_click_raises_witness :
  has_left_click click_frame ∧ run_frames init true None [click_frame] = None.
Proof.
  assert (Hclick : has_left_click click_frame)
    by (exists 1.0%float, 0%nat; by left).
  split; [exact Hclick |].
  apply (first_frame_click_raises init click_frame [] Hclick).
Defined.

(** ** The winner screen *)

Lemma winner_screen_click_eq s x y rnd :
  handle_winner_screen_click s x y rnd
  = Some (if show_winner_screen s && negb (fade_alpha s <? 0.7)%float
             && (is_point_in_rect x y restart_rect
                 || is_point_in_rect x y winner_menu_rect)
          then fresh_menu 0 (last_move_time s) else s).
Proof.
  unfold handle_winner_screen_click.
  destruct (show_winner_screen s); [| reflexivity].
  destruct (fade_alpha s <? 0.7)%float; [reflexivity |].
  cbn [negb orb andb]. cbv zeta.
  change ((-0.4)%float, (-0.3)%float, 0.3%float, 0.1%float) with restart_rect.
  change (0.1%float, (-0.3)%float, 0.3%float, 0.1%float) with winner_menu_rect.
  destruct (is_point_in_rect x y restart_rect);
    destruct (is_point_in_rect x y winner_menu_rect);
    rewrite ?reset_game_spec; reflexivity.
Qed.

(** X12. A click on the winner screen acts only when the screen is shown,
    has faded in to 0.7 or more, and the pointer is on one of its two
    buttons.  Both buttons then do the same: the game goes back to the
    fresh menu, the score and the symbols cleared, only the time of the
    last move kept.  Every other click leaves the state as it is, and no
    click raises. *)
Theorem winner_screen_click_cases (s : TicTacToe) (x y : float) (rnd : nat) :
  handle_winner_screen_click s x y rnd
  = Some (if show_winner_screen s && negb (fade_alpha s <? 0.7)%float
             && (is_point_in_rect x y restart_rect
                 || is_point_in_rect x y winner_menu_rect)
          then fresh_menu 0 (last_move_time s) else s).
Proof. apply winner_screen_click_eq. Qed.

(** ** The search for a winning cell *)

(** X13. On a 3x3 board [find_winning_move] raises nothing and hands the
    board back as it found it, every trial move taken back.  It returns the
    first cell in row-major order that is empty and completes a line for
    the mark, and no cell exactly when there is none. *)
Theorem find_winning_move_restores_board (b : Board) (m : mark) :
  board_ok b →
  ∃ found, find_winning_move b (Some m) = Some (b, found) ∧
    match found with
    | Some (i, j) =>
        wins_at b m i j ∧
        ∀ i' j', wins_at b m i' j' → row_major i j ≤ row_major i' j'
    | None => ∀ i j, ¬ wins_at b m i j
    end.
Proof.
  intros Hb. exists (find (winning_cell b (Some m)) all_cells).
  split; [by apply find_winning_move_spec |].
  destruct (find (winning_cell b (Some m)) all_cells) as [[i j]|] eqn:Hf.
  - apply find_all_cells_Some in Hf as (H & Htrue & Hfirst). split.
    + by apply winning_cell_wins_at.
    + intros i' j' Hw. pose proof Hw as (H' & _).
      destruct (Z_lt_le_dec (row_major i' j') (row_major i j)) as [Hlt | Hle];
        [| exact Hle].
      apply winning_cell_wins_at in Hw; [| done | done].
      rewrite (Hfirst i' j' H' Hlt) in Hw. discriminate Hw.
  - by apply find_None_no_win.
Qed.

Lemma find_winning_move_restores_board_witness :
  board_ok (board threat_state) ∧
  ∃ found, find_winning_move (board threat_state) (Some X)
           = Some (board threat_state, found) ∧
    match found with
    | Some (i, j) =>
        wins_at (board threat_state) X i j ∧
        ∀ i' j', wins_at (board threat_state) X i' j' →
                 row_major i j ≤ row_major i' j'
    | None => ∀ i j, ¬ wins_at (board threat_state) X i j
    end.
Proof.
  assert (Hb : board_ok (board threat_state)) by (vm_compute; repeat constructor).
  split; [exact Hb |].
  apply (find_winning_move_restores_board (board threat_state) X Hb).
Defined.

(** ** Flags, symbols and score *)

Lemma coherent_ext s s' :
  game_over s' = game_over s → show_winner_screen s' = show_winner_screen s →
  winner s' = winner s → in_menu s' = in_menu s →
  player_symbol s' = player_symbol s → computer_symbol s' = computer_symbol s →
  score s' = score s →
  coherent s → coherent s'.
Proof.
  intros Hgo Hsw Hw Him Hps Hcs Hsc. unfold coherent.
  by rewrite Hgo, Hsw, Hw, Him, Hps, Hcs, Hsc.
Qed.

Lemma fresh_menu_coherent ap lt : coherent (fresh_menu ap lt).
Proof. unfold coherent. cbn. repeat split; (done || lia). Qed.

Lemma init_coherent : coherent init.
Proof. unfold coherent. cbn. repeat split; (done || lia). Qed.

Lemma settle_show s w :
  show_winner_screen (settle s w) = decided (board s) w || show_winner_screen s.
Proof.
  unfold settle. destruct (decided (board s) w); [| reflexivity].
  by rewrite update_score_eq.
Qed.

(** The check after a placement keeps the state coherent; the winner the
    state held before does not matter. *)
Lemma settle_coherent s0 s w :
  coherent s0 →
  game_over s = game_over s0 → show_winner_screen s = show_winner_screen s0 →
  in_menu s = in_menu s0 →
  player_symbol s = player_symbol s0 → computer_symbol s = computer_symbol s0 →
  score s = score s0 →
  coherent (settle s w).
Proof.
  intros (Ha & _ & Hc & Hp & Hcm & Hd) Hgo Hsw Him Hps Hcs Hsc.
  destruct (settle_score s w) as (_ & H1 & H2 & H3).
  destruct (settle_frame s w) as (_ & _ & _ & _ & Hps' & Hcs' & Him' & _ & Hw' & Hgo').
  unfold coherent.
  rewrite Hps', Hcs', Him', Hw', Hgo', settle_show, Hgo, Hsw, Him, Hps, Hcs, Ha.
  split; [done |]. split.
  - intros Hne. destruct (decided (board s) w) eqn:Hdec; [done |].
    unfold decided in Hdec. destruct w; [discriminate Hdec | done].
  - split; [exact Hc |]. rewrite Hsc in H1, H2, H3. lia.
Qed.

Lemma handle_click_coherent s x y t rnd :
  well_formed s → coherent s → get_cell x y ≠ None →
  ∃ s1, handle_click s x y t rnd = Some s1 ∧ coherent s1.
Proof.
  intros [Hb Hh] Hco Hnum.
  destruct (get_cell x y) as [[r c]|] eqn:Hcell; [| done].
  destruct (handle_click_cases s x y t rnd r c Hb Hcell)
    as [Hsame | (Hgo & Hcp & H & Hcool & Hg)]; [by exists s |].
  destruct (handle_click_accepted s x y t rnd r c Hb Hgo Hcp Hcell H Hcool Hg)
    as (bp & w & Hs & Hw &
        [(Hdec & ->) | (Hdec & r' & c' & b' & w' & H' & Hg' & Hs' & Hw' & ->)]).
  - exists (settle (after_player_move s r c t bp) w). split; [done |].
    by apply (settle_coherent s).
  - eexists. split; [reflexivity |].
    match goal with
    | |- coherent (set_current_player (settle ?A w') true) =>
        apply (coherent_ext (settle A w')); try reflexivity;
        by apply (settle_coherent s)
    end.
Qed.

Lemma undo_last_move_coherent s :
  well_formed s → coherent s →
  ∃ s', undo_last_move s = Some s' ∧ coherent s'.
Proof.
  intros [Hb Hh] Hco.
  destruct (le_lt_dec 2 (length (move_history s))) as [Hlen | Hlen].
  - destruct (last_two (move_history s) Hlen) as (h & [[r1 c1] m1] & [[r2 c2] m2] & Heq).
    unfold history_on_board in Hh. rewrite Heq in Hh.
    apply Forall_app in Hh as [Hh0 Hh12].
    inversion_clear Hh12 as [|? ? H1 Hh2]. inversion_clear Hh2 as [|? ? H2 _].
    cbn [fst snd] in H1, H2.
    destruct (undo_last_move_two s h r1 c1 m1 r2 c2 m2 Hb H1 H2 Heq)
      as (b1 & b2 & Hs1 & Hs2 & Hb2 & Hundo).
    eexists. split; [exact Hundo |].
    destruct Hco as (_ & _ & Hc & Hd). by split.
  - exists s. split; [by apply undo_last_move_short | done].
Qed.

Lemma handle_menu_click_coherent s x y rnd :
  board_ok (board s) → coherent s →
  ∃ s', handle_menu_click s x y rnd = Some s' ∧ coherent s'.
Proof.
  intros Hb Hco. pose proof Hco as (Ha & Hw & Hc & Hd).
  assert (HX : coherent (chose_X s)).
  { split; [exact Ha |]. split; [exact Hw |]. split; [| exact Hd].
    intros _. by exists X. }
  assert (HO : coherent (chose_O s)).
  { split; [exact Ha |]. split; [exact Hw |]. split; [| exact Hd].
    intros _. by exists O. }
  destruct (handle_menu_click_cases s x y rnd) as [-> | [-> | [-> | [col ->]]]].
  - by exists s.
  - by exists (chose_X s).
  - destruct (computer_move_cases (chose_O s) rnd Hb)
      as [(r & c & b' & H & Hg & Hs & ->) | (_ & ->)];
      cbn [mbind option_bind]; eexists; (split; [reflexivity |]);
      by apply (coherent_ext (chose_O s)).
  - exists (set_player_color s col). split; [done |].
    by apply (coherent_ext s).
Qed.

Lemma set_in_menu_coherent s : coherent s → coherent (set_in_menu s true).
Proof.
  intros (Ha & Hw & _ & Hd). split; [exact Ha |]. split; [exact Hw |].
  split; [| exact Hd]. intros [=].
Qed.

Lemma handle_button_click_coherent s x y rnd :
  well_formed s → coherent s →
  ∃ s' hit, handle_button_click s x y rnd = Some (s', hit) ∧ coherent s' ∧
            (hit = false → s' = s).
Proof.
  intros Hwf Hco. unfold handle_button_click, buttons. cbn [handle_button_click_from].
  repeat match goal with
         | |- context [if is_point_in_rect x y ?r then _ else _] =>
             destruct (is_point_in_rect x y r)
         end.
  - change (button_action s "restart" rnd) with (reset_game s rnd).
    rewrite reset_game_spec. cbn [mbind option_bind].
    eexists _, true. split; [reflexivity |]. split; [apply fresh_menu_coherent | done].
  - change (button_action s "menu" rnd) with (Some (set_in_menu s true)).
    cbn [mbind option_bind].
    eexists _, true. split; [reflexivity |].
    split; [by apply set_in_menu_coherent | done].
  - change (button_action s "undo" rnd) with (undo_last_move s).
    destruct (undo_last_move_coherent s Hwf Hco) as (s' & -> & Hco').
    cbn [mbind option_bind]. by exists s', true.
  - by exists s, false.
Qed.

(** X14. The event handling of the game loop keeps the flags, the symbols
    and the score coherent: after every event the winner screen is up
    exactly when the round is over, a winner is recorded only for a round
    that is over, outside the menu the player and the computer hold
    opposite marks, and no score counter is negative. *)
Theorem handle_event_keeps_coherent (s : TicTacToe) (running : bool)
    (ev : Event) (x y now : float) (rnd : nat) :
  well_formed s → coherent s → get_cell x y ≠ None →
  ∃ s' running', handle_event s running ev x y now rnd = Some (s', running') ∧
                 coherent s'.
Proof.
  intros Hwf Hco Hnum.
  destruct ev as [| | key ctrl | button]; unfold handle_event.
  - by exists s, false.
  - by exists s, running.
  - destruct key.
    + destruct (negb (in_menu s)); [| by exists s, false].
      exists (set_in_menu s true), running.
      split; [done | by apply set_in_menu_coherent].
    + destruct (game_over s); [| by exists s, running].
      rewrite reset_game_spec. cbn [mbind option_bind].
      eexists _, running. split; [reflexivity | apply fresh_menu_coherent].
    + destruct ctrl; [| by exists s, running].
      destruct (undo_last_move_coherent s Hwf Hco) as (s' & -> & Hco').
      by exists s', running.
    + by exists s, running.
  - destruct (button =? 1); [| by exists s, running].
    destruct (in_menu s).
    + destruct (handle_menu_click_coherent s x y rnd (proj1 Hwf) Hco)
        as (s' & -> & Hco').
      by exists s', running.
    + destruct (handle_button_click_coherent s x y rnd Hwf Hco)
        as (s' & hit & -> & Hco' & Hsame).
      cbn [mbind option_bind]. destruct hit; [by exists s', running |].
      rewrite (Hsame eq_refl) in *. clear Hsame.
      destruct (show_winner_screen s).
      * rewrite winner_screen_click_eq. cbn [mbind option_bind].
        eexists _, running. split; [reflexivity |].
        match goal with
        | |- coherent (if ?c then _ else _) =>
            destruct c; [apply fresh_menu_coherent | exact Hco]
        end.
      * destruct (current_player s && negb (game_over s));
          [| by exists s, running].
        destruct (handle_click_coherent s x y now rnd Hwf Hco Hnum)
          as (s2 & -> & Hco2).
        by exists s2, running.
Qed.

Lemma handle_event_keeps_coherent_witness :
  well_formed started_X ∧ coherent started_X ∧ get_cell (-0.7) (-0.7) ≠ None ∧
  ∃ s' running', handle_event started_X true (MOUSEBUTTONDOWN 1) (-0.7) (-0.7) 1 0
                 = Some (s', running') ∧ coherent s'.
Proof.
  assert (Hwf : well_formed started_X)
    by (split; [vm_compute; repeat constructor | constructor]).
  assert (Hco : coherent started_X).
  { unfold coherent. cbn. repeat split; try (done || lia). intros _. by exists X. }
  assert (Hnum : get_cell (-0.7) (-0.7) ≠ None) by (vm_compute; discriminate).
  split; [exact Hwf |]. split; [exact Hco |]. split; [exact Hnum |].
  apply (handle_event_keeps_coherent started_X true (MOUSEBUTTONDOWN 1)
           (-0.7) (-0.7) 1 0%nat Hwf Hco Hnum).
Defined.

(** ** The buttons of the game bar *)

(** Undo only clears cells. *)
Lemma undo_last_move_no_new_mark s :
  well_formed s →
  ∃ s', undo_last_move s = Some s' ∧
        ∀ r c m, on_board r c → board_get (board s') r c = Some (Some m) →
                 board_get (board s) r c = Some (Some m).
Proof.
  intros [Hb Hh].
  destruct (le_lt_dec 2 (length (move_history s))) as [Hlen | Hlen].
  - destruct (last_two (move_history s) Hlen) as (h & [[r1 c1] m1] & [[r2 c2] m2] & Heq).
    unfold history_on_board in Hh. rewrite Heq in Hh.
    apply Forall_app in Hh as [Hh0 Hh12].
    inversion_clear Hh12 as [|? ? H1 Hh2]. inversion_clear Hh2 as [|? ? H2 _].
    cbn [fst snd] in H1, H2.
    destruct (undo_last_move_two s h r1 c1 m1 r2 c2 m2 Hb H1 H2 Heq)
      as (b1 & b2 & Hs1 & Hs2 & Hb2 & Hundo).
    pose proof (board_set_keeps_ok (board s) r2 c2 None b1 Hb H2 Hs1) as Hb1.
    eexists. split; [exact Hundo |].
    cbn [board set_animation_progress set_current_player set_show_winner_screen
         set_winner set_game_over set_board].
    intros r c m H Hg.
    destruct (decide ((r, c) = (r1, c1))) as [[= -> ->] | Hne1].
    { rewrite (board_get_set_eq b1 r1 c1 None b2 Hb1 H1 Hs2) in Hg. discriminate Hg. }
    rewrite (board_get_set_ne b1 r1 c1 None b2 r c Hb1 H1 H Hne1 Hs2) in Hg.
    destruct (decide ((r, c) = (r2, c2))) as [[= -> ->] | Hne2].
    { rewrite (board_get_set_eq (board s) r2 c2 None b1 Hb H2 Hs1) in Hg.
      discriminate Hg. }
    by rewrite (board_get_set_ne (board s) r2 c2 None b1 r c Hb H2 H Hne2 Hs1) in Hg.
  - exists s. split; [by apply undo_last_move_short | done].
Qed.

(** X15. The buttons of the game bar lie over the board, and they come
    first: outside the menu a left click with the pointer on one of them
    is never passed on as a move.  It raises nothing and puts no mark on
    the board, even when the pointer is over an empty cell and it is the
    player's turn; the marks left are marks that were there. *)
Theorem button_click_places_no_mark (s : TicTacToe) (running : bool)
    (x y now : float) (rnd : nat) :
  well_formed s → in_menu s = false → on_game_button x y →
  ∃ s', handle_event s running (MOUSEBUTTONDOWN 1) x y now rnd = Some (s', running) ∧
        ∀ r c m, on_board r c → board_get (board s') r c = Some (Some m) →
                 board_get (board s) r c = Some (Some m).
Proof.
  intros Hwf Him (name & rect & Hin & Hrect).
  unfold handle_event. change (1 =? 1) with true. cbv iota. rewrite Him.
  unfold handle_button_click. unfold buttons in *.
  cbn [handle_button_click_from].
  match goal with
  | |- context [if is_point_in_rect x y ?r then _ else _] =>
      destruct (is_point_in_rect x y r) eqn:E1
  end.
  { change (button_action s "restart" rnd) with (reset_game s rnd).
    rewrite reset_game_spec. cbn [mbind option_bind].
    eexists. split; [reflexivity |].
    intros r c m H Hg. exfalso. cbn [board fresh_menu] in Hg.
    split_cell r c H; discriminate Hg. }
  match goal with
  | |- context [if is_point_in_rect x y ?r then _ else _] =>
      destruct (is_point_in_rect x y r) eqn:E2
  end.
  { change (button_action s "menu" rnd) with (Some (set_in_menu s true)).
    cbn [mbind option_bind]. by exists (set_in_menu s true). }
  match goal with
  | |- context [if is_point_in_rect x y ?r then _ else _] =>
      destruct (is_point_in_rect x y r) eqn:E3
  end.
  { change (button_action s "undo" rnd) with (undo_last_move s).
    destruct (undo_last_move_no_new_mark s Hwf) as (s' & -> & Hmarks).
    cbn [mbind option_bind]. by exists s'. }
  exfalso.
  destruct Hin as [[= <- <-] | [[= <- <-] | [[= <- <-] | []]]];
    [pose proof (eq_trans (eq_sym Hrect) E1) as Habs
    | pose proof (eq_trans (eq_sym Hrect) E2) as Habs
    | pose proof (eq_trans (eq_sym Hrect) E3) as Habs];
    discriminate Habs.
Qed.

Lemma button_click_places_no_mark_witness :
  well_formed started_X ∧ in_menu started_X = false ∧ on_game_button 0.1 0.1 ∧
  get_cell 0.1 0.1 = Some (1, 1) ∧ board_get (board started_X) 1 1 = Some None ∧
  current_player started_X = true ∧
  ∃ s', handle_event started_X true (MOUSEBUTTONDOWN 1) 0.1 0.1 1 0 = Some (s', true) ∧
        ∀ r c m, on_board r c → board_get (board s') r c = Some (Some m) →
                 board_get (board started_X) r c = Some (Some m).
Proof.
  assert (Hwf : well_formed started_X)
    by (split; [vm_compute; repeat constructor | constructor]).
  assert (Hbtn : on_game_button 0.1 0.1).
  { exists "restart"%string, (0.05, 0.05, button_width, button_height)%float.
    split; [by left | vm_compute; reflexivity]. }
  split; [exact Hwf |]. split; [reflexivity |]. split; [exact Hbtn |].
  split; [vm_compute; reflexivity |]. split; [reflexivity |]. split; [reflexivity |].
  apply (button_click_places_no_mark started_X true 0.1 0.1 1 0%nat Hwf eq_refl Hbtn).
Defined.
